(** * Admin provisioning scripts of triterm

    Shallow embedding of [server/scripts/create-admin-user.ts] and
    [scripts/create-admin-user.js]: the validation checks, the lookup for an
    existing user, the password hashing, the insertion of the admin row and
    the error handler, followed by the properties of the provisioning
    pipeline.

    Strings are JavaScript strings restricted to code units below 256
    (Latin-1), which [Stdlib]'s [string] represents exactly; on that range
    [toLowerCase], [length] and the regular expressions below behave as in
    the engine. *)

From Stdlib Require Import String Ascii List Bool Arith Lia.
Import ListNotations.
Open Scope string_scope.
Open Scope list_scope.
Open Scope nat_scope.

(** ** Strings *)

Definition code (c : ascii) : nat := nat_of_ascii c.

Definition inRange (lo hi : nat) (c : ascii) : bool :=
  (lo <=? code c) && (code c <=? hi).

(** [String.prototype.toLowerCase] on one code unit: A-Z and the Latin-1
    capitals U+00C0..U+00DE (U+00D7, the multiplication sign, excepted) move
    up by 32; every other code unit below 256 is left as it is. *)
Definition lowerChar (c : ascii) : ascii :=
  if inRange 65 90 c || (inRange 192 222 c && negb (code c =? 215))
  then ascii_of_nat (code c + 32)
  else c.

Fixpoint toLowerCase (s : string) : string :=
  match s with
  | EmptyString => EmptyString
  | String c s' => String (lowerChar c) (toLowerCase s')
  end.

(** ** Regular expressions

    The scripts only call [RegExp.prototype.test] on literals without flags,
    groups or back-references, so a pattern is a regular language and
    [test] is membership, decided here by derivatives ([matches_lang]
    relates the matcher to the language). *)

Inductive regex : Type :=
| Void
| Eps
| Class (p : ascii -> bool)
| Cat (r s : regex)
| Alt (r s : regex)
| Star (r : regex).

Definition Plus (r : regex) : regex := Cat r (Star r).

Fixpoint nullable (r : regex) : bool :=
  match r with
  | Void => false
  | Eps => true
  | Class _ => false
  | Cat r s => nullable r && nullable s
  | Alt r s => nullable r || nullable s
  | Star _ => true
  end.

Fixpoint deriv (c : ascii) (r : regex) : regex :=
  match r with
  | Void => Void
  | Eps => Void
  | Class p => if p c then Eps else Void
  | Cat r s =>
      if nullable r then Alt (Cat (deriv c r) s) (deriv c s)
      else Cat (deriv c r) s
  | Alt r s => Alt (deriv c r) (deriv c s)
  | Star r => Cat (deriv c r) (Star r)
  end.

Fixpoint matches (r : regex) (s : string) : bool :=
  match s with
  | EmptyString => nullable r
  | String c s' => matches (deriv c r) s'
  end.

(** The language of a regular expression. *)
Inductive lang : regex -> string -> Prop :=
| LEps : lang Eps ""
| LClass (p : ascii -> bool) (c : ascii) : p c = true -> lang (Class p) (String c "")
| LCat (r s : regex) (x y : string) : lang r x -> lang s y -> lang (Cat r s) (x ++ y)%string
| LAltL (r s : regex) (x : string) : lang r x -> lang (Alt r s) x
| LAltR (r s : regex) (x : string) : lang s x -> lang (Alt r s) x
| LStarNil (r : regex) : lang (Star r) ""
| LStarCons (r : regex) (x y : string) :
    lang r x -> lang (Star r) y -> lang (Star r) (x ++ y)%string.

(** Every character of a string satisfies [p]. *)
Fixpoint allChars (p : ascii -> bool) (s : string) : bool :=
  match s with
  | EmptyString => true
  | String c s' => p c && allChars p s'
  end.

(** Some character of a string satisfies [p]. *)
Fixpoint someChar (p : ascii -> bool) (s : string) : bool :=
  match s with
  | EmptyString => false
  | String c s' => p c || someChar p s'
  end.

(** A literal is either anchored at both ends, [/^r$/], or searched for
    anywhere in the subject, [/r/]. *)
Inductive pattern : Type :=
| Anchored (r : regex)
| Floating (r : regex).

Definition anyChar : regex := Class (fun _ => true).

Definition test (p : pattern) (s : string) : bool :=
  match p with
  | Anchored r => matches r s
  | Floating r => matches (Cat (Star anyChar) (Cat r (Star anyChar))) s
  end.

(** Character classes of the literals. *)

(** [\s] below U+0100: TAB, LF, VT, FF, CR, SPACE and NBSP. *)
Definition isSpace (c : ascii) : bool :=
  inRange 9 13 c || (code c =? 32) || (code c =? 160).

Definition isChar (x : ascii) (c : ascii) : bool := Ascii.eqb x c.

(** [[^\s@]] *)
Definition notSpaceAt (c : ascii) : bool :=
  negb (isSpace c || isChar "@" c).

Definition isUpper (c : ascii) : bool := inRange 65 90 c.
Definition isLower (c : ascii) : bool := inRange 97 122 c.
Definition isDigit (c : ascii) : bool := inRange 48 57 c.

(** [[a-zA-Z0-9_-]] *)
Definition isUsernameChar (c : ascii) : bool :=
  isLower c || isUpper c || isDigit c || isChar "_" c || isChar "-" c.

Definition doubleQuote : ascii := ascii_of_nat 34.

(** The 28 members of the special-character class of the last password
    check, in the order of the literal; the double quote is its 14th. *)
Definition specialChars : list ascii :=
  list_ascii_of_string "!@#$%^&*(),.?" ++ doubleQuote ::
  list_ascii_of_string ":{}|<>_-+=[]\/".

Definition isSpecial (c : ascii) : bool :=
  existsb (fun x => Ascii.eqb x c) specialChars.

(** [/^[^\s@]+@[^\s@]+\.[^\s@]+$/] *)
Definition emailRegex : pattern :=
  Anchored (Cat (Plus (Class notSpaceAt))
           (Cat (Class (isChar "@"))
           (Cat (Plus (Class notSpaceAt))
           (Cat (Class (isChar "."))
                (Plus (Class notSpaceAt)))))).

(** [/^[a-zA-Z0-9_-]+$/] *)
Definition usernameRegex : pattern := Anchored (Plus (Class isUsernameChar)).

(** [/[A-Z]/], [/[a-z]/], [/[0-9]/] and the special-character class. *)
Definition upperRegex : pattern := Floating (Class isUpper).
Definition lowerRegex : pattern := Floating (Class isLower).
Definition digitRegex : pattern := Floating (Class isDigit).
Definition specialRegex : pattern := Floating (Class isSpecial).

(** ** Data model *)

(** A row of the [User] table, with the columns the scripts read or write. *)
Module User.
Record t : Type := mk {
  id : nat;
  email : string;
  username : string;
  password : string;
  role : string;
  isActive : bool;
  createdAt : nat
}.
End User.

(** The [data] argument of [prisma.user.create]. *)
Record CreateData : Type := mkData {
  data_email : string;
  data_username : string;
  data_password : string;
  data_role : string;
  data_isActive : bool
}.

(** The projection requested by [select]: the six columns printed after a
    successful creation. There is no [password] column in it. *)
Record Selected : Type := mkSelected {
  sel_id : nat;
  sel_email : string;
  sel_username : string;
  sel_role : string;
  sel_isActive : bool;
  sel_createdAt : nat
}.

Definition select (r : User.t) : Selected :=
  {| sel_id := User.id r;
     sel_email := User.email r;
     sel_username := User.username r;
     sel_role := User.role r;
     sel_isActive := User.isActive r;
     sel_createdAt := User.createdAt r |}.

(** An error rejected by a client call; [error.code] may be absent. *)
Record PrismaError : Type := mkError {
  err_code : option string;
  err_message : string
}.

(** What [console.error] reports right before [process.exit(1)]: one
    constructor for each distinct message of the two scripts. *)
Inductive Failure : Type :=
| MissingArguments            (* Missing required arguments *)
| MissingRequired             (* Email, username, and password are required *)
| InvalidEmailFormat
| InvalidUsernameFormat
| InvalidUsernameLength
| PasswordTooShort
| PasswordMissingUppercase
| PasswordMissingLowercase
| PasswordMissingDigit
| PasswordMissingSpecialChar
| EmailTaken                  (* User with email ... already exists *)
| UsernameTaken               (* Username ... is already taken *)
| EmailOrUsernameTaken        (* A user with this email or username already exists. *)
| StoreUnavailable            (* Cannot connect to database. *)
| SchemaMissing               (* Database tables do not exist yet! *)
| UnknownStoreError (e : PrismaError).  (* Full error: ... *)

(** The calls that leave the process. *)
Inductive Event : Type :=
| EvFindFirst (emailKey usernameKey : string)
| EvHash (rounds : nat)
| EvCreate (d : CreateData)
| EvDisconnect.

(** The environment of one run: the [User] table, the condition of the
    database ([Some e]: every query is rejected with [e]), the function
    [bcrypt.hash] computes with the salt it draws for this run, the clock of
    the database, and the calls made so far, oldest first. *)
Record World : Type := mkWorld {
  rows : list User.t;
  fault : option PrismaError;
  bcrypt : string -> nat -> string;
  clock : nat;
  events : list Event
}.

Definition record (ev : Event) (w : World) : World :=
  {| rows := rows w; fault := fault w; bcrypt := bcrypt w;
     clock := clock w; events := events w ++ [ev] |}.

Definition insert (r : User.t) (w : World) : World :=
  {| rows := rows w ++ [r]; fault := fault w; bcrypt := bcrypt w;
     clock := clock w; events := events w |}.

(** ** Control flow

    A statement list either runs to its end, or is left by a rejected
    [await], or ends the process through [process.exit(1)]. *)
Inductive Completion (A : Type) : Type :=
| Normal (a : A)
| Thrown (e : PrismaError)
| Exited (f : Failure).
Arguments Normal {A} a.
Arguments Thrown {A} e.
Arguments Exited {A} f.

Definition Js (A : Type) : Type := World -> Completion A * World.

Definition ret {A : Type} (a : A) : Js A := fun w => (Normal a, w).

Definition bind {A B : Type} (m : Js A) (k : A -> Js B) : Js B :=
  fun w =>
    match m w with
    | (Normal a, w') => k a w'
    | (Thrown e, w') => (Thrown e, w')
    | (Exited f, w') => (Exited f, w')
    end.

Notation "x <- m ;; k" := (bind m (fun x => k))
  (at level 61, m at next level, right associativity).
Notation "m ;; k" := (bind m (fun _ => k))
  (at level 61, right associativity).

(** [console.error(msg); process.exit(1);] *)
Definition exit1 {A : Type} (f : Failure) : Js A := fun w => (Exited f, w).

(** [if (b) { ... }] *)
Definition when (b : bool) (m : Js unit) : Js unit :=
  if b then m else ret tt.

(** [try { body } catch (error) { handler } finally { fin }]. Once
    [process.exit] has been called nothing else runs, the [finally] block
    included. *)
Definition tryCatchFinally {A : Type}
    (body : Js A) (handler : PrismaError -> Js A) (fin : Js unit) : Js A :=
  fun w =>
    let after (r : Completion A * World) : Completion A * World :=
      match r with
      | (Exited f, w') => (Exited f, w')
      | (c, w') =>
          match fin w' with
          | (Normal _, w'') => (c, w'')
          | (Thrown e, w'') => (Thrown e, w'')
          | (Exited f, w'') => (Exited f, w'')
          end
      end in
    match body w with
    | (Thrown e, w') => after (handler e w')
    | r => after r
    end.

(** ** The database client and the hashing library *)

(** The [where] clause of the lookup: [OR] of two equality filters.
    Equality on a [String] column is exact on SQLite and PostgreSQL, the
    databases of the setup guide. *)
Definition whereOr (emailKey usernameKey : string) (r : User.t) : bool :=
  String.eqb (User.email r) emailKey || String.eqb (User.username r) usernameKey.

(** Modelled from the spec: the schema of the [User] table is not among the
    sources. The row that answers the [OR] of the two filters: the query
    gives no [orderBy], and with the unique indexes on the two columns the
    database answers an [OR] of two equalities index by index, in the order
    of the clause: a row with the email if there is one, a row with the
    username otherwise. *)
Definition selectFirst (emailKey usernameKey : string) (rs : list User.t)
  : option User.t :=
  match find (fun r => String.eqb (User.email r) emailKey) rs with
  | Some r => Some r
  | None => find (fun r => String.eqb (User.username r) usernameKey) rs
  end.

(** [prisma.user.findFirst({ where: { OR: [{ email }, { username }] } })] *)
Definition findFirst (emailKey usernameKey : string) : Js (option User.t) :=
  fun w =>
    let w' := record (EvFindFirst emailKey usernameKey) w in
    match fault w with
    | Some e => (Thrown e, w')
    | None => (Normal (selectFirst emailKey usernameKey (rows w)), w')
    end.

(** [bcrypt.hash(password, rounds)] *)
Definition bcrypt_hash (plaintext : string) (rounds : nat) : Js string :=
  fun w => (Normal (bcrypt w plaintext rounds), record (EvHash rounds) w).

Definition freshId (rs : list User.t) : nat :=
  S (list_max (map User.id rs)).

Definition uniqueViolation : PrismaError :=
  {| err_code := Some "P2002";
     err_message := "Unique constraint failed" |}.

(** Modelled from the spec: the schema of the [User] table is not among the
    sources. The store assigns [id] and [createdAt], and rejects with a
    uniqueness violation (P2002) a row whose [email] or [username] is already
    present; the comparison of the unique index is exact, as that of the
    lookup. *)
Definition create (d : CreateData) : Js Selected :=
  fun w =>
    let w' := record (EvCreate d) w in
    match fault w with
    | Some e => (Thrown e, w')
    | None =>
        if existsb (whereOr (data_email d) (data_username d)) (rows w)
        then (Thrown uniqueViolation, w')
        else
          let r := {| User.id := freshId (rows w);
                      User.email := data_email d;
                      User.username := data_username d;
                      User.password := data_password d;
                      User.role := data_role d;
                      User.isActive := data_isActive d;
                      User.createdAt := clock w |} in
          (Normal (select r), insert r w')
    end.

(** [prisma.$disconnect()] *)
Definition disconnect : Js unit :=
  fun w => (Normal tt, record EvDisconnect w).

Definition hasCode (e : PrismaError) (c : string) : bool :=
  match err_code e with
  | Some c' => String.eqb c' c
  | None => false
  end.

(** ** server/scripts/create-admin-user.ts *)
Module TS.

Definition SALT_ROUNDS : nat := 12.

(** The checks of lines 32-75. *)
Definition validation (email username password : string) : Js unit :=
  when (negb (test emailRegex email)) (exit1 InvalidEmailFormat) ;;
  when (negb (test usernameRegex username)) (exit1 InvalidUsernameFormat) ;;
  when ((String.length username <? 3) || (20 <? String.length username))
    (exit1 InvalidUsernameLength) ;;
  when (String.length password <? 8) (exit1 PasswordTooShort) ;;
  when (negb (test upperRegex password)) (exit1 PasswordMissingUppercase) ;;
  when (negb (test lowerRegex password)) (exit1 PasswordMissingLowercase) ;;
  when (negb (test digitRegex password)) (exit1 PasswordMissingDigit) ;;
  when (negb (test specialRegex password)) (exit1 PasswordMissingSpecialChar).

(** The lookup and the two comparisons of lines 77-96. When neither
    comparison holds the block is left without an exit. *)
Definition checkExisting (email username : string) : Js unit :=
  existingUser <- findFirst (toLowerCase email) (toLowerCase username) ;;
  match existingUser with
  | Some existingUser =>
      when (String.eqb (toLowerCase (User.email existingUser)) (toLowerCase email))
        (exit1 EmailTaken) ;;
      when (String.eqb (toLowerCase (User.username existingUser)) (toLowerCase username))
        (exit1 UsernameTaken)
  | None => ret tt
  end.

(** The [catch] block. *)
Definition handler (error : PrismaError) : Js Selected :=
  if hasCode error "P2002" then exit1 EmailOrUsernameTaken
  else if hasCode error "P1001" then exit1 StoreUnavailable
  else if hasCode error "P2021" then exit1 SchemaMissing
  else exit1 (UnknownStoreError error).

(** Returns the selected columns of the created row, which the script
    prints. *)
Definition createAdminUser (email username password : string) : Js Selected :=
  tryCatchFinally
    (validation email username password ;;
     checkExisting email username ;;
     hashedPassword <- bcrypt_hash password SALT_ROUNDS ;;
     user <- create {| data_email := toLowerCase email;
                       data_username := username;
                       data_password := hashedPassword;
                       data_role := "ADMIN";
                       data_isActive := true |} ;;
     ret user)
    handler
    disconnect.

(** The top level: [args] is [process.argv.slice(2)]. *)
Definition main (args : list string) : Js Selected :=
  if List.length args <? 3 then exit1 MissingArguments
  else createAdminUser (nth 0 args "") (nth 1 args "") (nth 2 args "").

End TS.

(** ** scripts/create-admin-user.js *)
Module JS.

Definition SALT_ROUNDS : nat := 12.

(** [!s] on a string. *)
Definition falsy (s : string) : bool := String.eqb s "".

(** The checks of lines 46-97. *)
Definition validation (email username password : string) : Js unit :=
  when (falsy email || falsy username || falsy password) (exit1 MissingRequired) ;;
  when (negb (test emailRegex email)) (exit1 InvalidEmailFormat) ;;
  when (negb (test usernameRegex username)) (exit1 InvalidUsernameFormat) ;;
  when ((String.length username <? 3) || (20 <? String.length username))
    (exit1 InvalidUsernameLength) ;;
  when (String.length password <? 12) (exit1 PasswordTooShort) ;;
  when (negb (test upperRegex password)) (exit1 PasswordMissingUppercase) ;;
  when (negb (test lowerRegex password)) (exit1 PasswordMissingLowercase) ;;
  when (negb (test digitRegex password)) (exit1 PasswordMissingDigit) ;;
  when (negb (test specialRegex password)) (exit1 PasswordMissingSpecialChar).

(** The lookup and the two comparisons of lines 99-118. *)
Definition checkExisting (email username : string) : Js unit :=
  existingUser <- findFirst (toLowerCase email) (toLowerCase username) ;;
  match existingUser with
  | Some existingUser =>
      when (String.eqb (toLowerCase (User.email existingUser)) (toLowerCase email))
        (exit1 EmailTaken) ;;
      when (String.eqb (toLowerCase (User.username existingUser)) (toLowerCase username))
        (exit1 UsernameTaken)
  | None => ret tt
  end.

(** The [catch] block: there is no branch for P2021. *)
Definition handler (error : PrismaError) : Js Selected :=
  if hasCode error "P2002" then exit1 EmailOrUsernameTaken
  else if hasCode error "P1001" then exit1 StoreUnavailable
  else exit1 (UnknownStoreError error).

Definition createAdminUser (email username password : string) : Js Selected :=
  tryCatchFinally
    (validation email username password ;;
     checkExisting email username ;;
     hashedPassword <- bcrypt_hash password SALT_ROUNDS ;;
     user <- create {| data_email := toLowerCase email;
                       data_username := username;
                       data_password := hashedPassword;
                       data_role := "ADMIN";
                       data_isActive := true |} ;;
     ret user)
    handler
    disconnect.

Definition main (args : list string) : Js Selected :=
  if List.length args <? 3 then exit1 MissingArguments
  else createAdminUser (nth 0 args "") (nth 1 args "") (nth 2 args "").

End JS.

(** ** Results of a run *)

Definition outcome {A : Type} (r : Completion A * World) : Completion A := fst r.
Definition final {A : Type} (r : Completion A * World) : World := snd r.

(** ** The validation policy, as the specification words it

    Eight rules in a fixed order; a candidate is rejected with the kind of
    the first rule it does not satisfy. *)

Record Rule : Type := mkRule {
  kind : Failure;
  holds : string -> string -> string -> bool
}.

Definition rules (minLength : nat) : list Rule :=
  [ mkRule InvalidEmailFormat (fun e _ _ => test emailRegex e);
    mkRule InvalidUsernameFormat (fun _ u _ => test usernameRegex u);
    mkRule InvalidUsernameLength
      (fun _ u _ => (3 <=? String.length u) && (String.length u <=? 20));
    mkRule PasswordTooShort (fun _ _ p => minLength <=? String.length p);
    mkRule PasswordMissingUppercase (fun _ _ p => test upperRegex p);
    mkRule PasswordMissingLowercase (fun _ _ p => test lowerRegex p);
    mkRule PasswordMissingDigit (fun _ _ p => test digitRegex p);
    mkRule PasswordMissingSpecialChar (fun _ _ p => test specialRegex p) ].

Definition firstViolation (minLength : nat) (e u p : string) : option Failure :=
  option_map kind (find (fun r => negb (holds r e u p)) (rules minLength)).

(** The completion of the validation block that corresponds to a verdict of
    the policy; the world is not touched. *)
Definition verdict (v : option Failure) : Js unit :=
  fun w => match v with
           | Some f => (Exited f, w)
           | None => (Normal tt, w)
           end.

(** Case-insensitive uniqueness of the [email] and [username] columns. *)
Definition uniqueCI (rs : list User.t) : Prop :=
  NoDup (map (fun r => toLowerCase (User.email r)) rs) /\
  NoDup (map (fun r => toLowerCase (User.username r)) rs).

Definition collidesUsername (username : string) (r : User.t) : Prop :=
  toLowerCase (User.username r) = toLowerCase username.

(** *** A statement of the specification, as it words it *)

(** Validation reports the first violated rule, for every candidate. *)
Definition reportsFirstViolation (minLength : nat)
    (run : string -> string -> string -> Js Selected) : Prop :=
  forall (e u p : string) (w : World) (f : Failure),
    firstViolation minLength e u p = Some f ->
    outcome (run e u p w) = Exited f.


(** The eight failures of the validation policy. *)
Definition isValidationKind (f : Failure) : bool :=
  match f with
  | InvalidEmailFormat | InvalidUsernameFormat | InvalidUsernameLength
  | PasswordTooShort | PasswordMissingUppercase | PasswordMissingLowercase
  | PasswordMissingDigit | PasswordMissingSpecialChar => true
  | _ => false
  end.


(** The message chosen for a row returned by the lookup. *)
Definition reported (e : string) (r : User.t) : Failure :=
  if String.eqb (toLowerCase (User.email r)) (toLowerCase e)
  then EmailTaken else UsernameTaken.

(** The row written for a candidate. *)
Definition adminRow (w : World) (e u p : string) : User.t :=
  {| User.id := freshId (rows w);
     User.email := toLowerCase e;
     User.username := u;
     User.password := bcrypt w p 12;
     User.role := "ADMIN";
     User.isActive := true;
     User.createdAt := clock w |}.

Definition adminData (w : World) (e u p : string) : CreateData :=
  {| data_email := toLowerCase e;
     data_username := u;
     data_password := bcrypt w p 12;
     data_role := "ADMIN";
     data_isActive := true |}.

(** The world after the lookup, the hashing and the write attempt. *)
Definition attempted (w : World) (e u p : string) : World :=
  record (EvCreate (adminData w e u p))
    (record (EvHash 12)
      (record (EvFindFirst (toLowerCase e) (toLowerCase u)) w)).

(** The world after a successful run. *)
Definition created (w : World) (e u p : string) : World :=
  record EvDisconnect (insert (adminRow w e u p) (attempted w e u p)).

(** ** Sample worlds *)





(** A stand-in for the function that [bcrypt.hash] computes in a run. *)
Definition sampleHash (plaintext : string) (rounds : nat) : string :=
  "$2b$12$" ++ plaintext.

Definition emptyWorld : World :=
  {| rows := []; fault := None; bcrypt := sampleHash; clock := 1000; events := [] |}.

Definition rootRow : User.t :=
  {| User.id := 1;
     User.email := "root@example.com";
     User.username := "Admin";
     User.password := "$2b$12$stored";
     User.role := "ADMIN";
     User.isActive := true;
     User.createdAt := 900 |}.

(** A table with one account, whose username has a capital. *)
Definition oneAdmin : World :=
  {| rows := [rootRow]; fault := None; bcrypt := sampleHash;
     clock := 1000; events := [] |}.


Definition ownerRow : User.t :=
  {| User.id := 1;
     User.email := "owner@example.com";
     User.username := "admin";
     User.password := "$2b$12$stored";
     User.role := "ADMIN";
     User.isActive := true;
     User.createdAt := 900 |}.

Definition operatorRow : User.t :=
  {| User.id := 2;
     User.email := "admin@example.com";
     User.username := "operator";
     User.password := "$2b$12$stored";
     User.role := "USER";
     User.isActive := true;
     User.createdAt := 950 |}.

(** A table with two accounts: the first holds the username [admin], the
    second the email [admin@example.com]. *)
Definition twoAccounts : World :=
  {| rows := [ownerRow; operatorRow]; fault := None; bcrypt := sampleHash;
     clock := 1000; events := [] |}.

Definition tableMissing : PrismaError :=
  {| err_code := Some "P2021";
     err_message := "The table main.User does not exist in the current database." |}.

(** A database that has not been migrated. *)
Definition noSchema : World :=
  {| rows := []; fault := Some tableMissing; bcrypt := sampleHash;
     clock := 1000; events := [] |}.

(** ** Shapes accepted by the checks *)

(** A local part, an at sign, a domain and, after a dot of the domain, a
    last piece; the three pieces are non-empty and hold neither white space
    nor an at sign. *)
Definition emailShape (s : string) : Prop :=
  exists l d t,
    s = (l ++ "@" ++ d ++ "." ++ t)%string /\
    l <> "" /\ d <> "" /\ t <> "" /\
    allChars notSpaceAt l = true /\
    allChars notSpaceAt d = true /\
    allChars notSpaceAt t = true.

Definition usernameShape (u : string) : Prop :=
  3 <= String.length u <= 20 /\ allChars isUsernameChar u = true.

Definition passwordShape (minLength : nat) (p : string) : Prop :=
  minLength <= String.length p /\
  someChar isUpper p = true /\
  someChar isLower p = true /\
  someChar isDigit p = true /\
  someChar isSpecial p = true.

(** A row as the scripts write them: the email in lower case and of the
    accepted shape, the username of the accepted shape. *)
Definition scriptRow (r : User.t) : Prop :=
  User.email r = toLowerCase (User.email r) /\
  test emailRegex (User.email r) = true /\
  test usernameRegex (User.username r) = true /\
  3 <= String.length (User.username r) <= 20.

(** The emails of a table are in lower case and pairwise distinct. *)
Definition emailsNormalised (rs : list User.t) : Prop :=
  (forall r, In r rs -> User.email r = toLowerCase (User.email r)) /\
  NoDup (map User.email rs).

(** The calls a run added to the log. *)
Definition calls (w w' : World) : list Event :=
  skipn (List.length (events w)) (events w').

(** What a run of either script amounts to, stage by stage, for a minimum
    length and a [catch] block. *)
Definition pipeline (minLength : nat) (handler : PrismaError -> Js Selected)
    (e u p : string) : Js Selected :=
  fun w =>
    match firstViolation minLength e u p with
    | Some f => (Exited f, w)
    | None =>
        match fault w with
        | Some err =>
            handler err (record (EvFindFirst (toLowerCase e) (toLowerCase u)) w)
        | None =>
            match selectFirst (toLowerCase e) (toLowerCase u) (rows w) with
            | Some r =>
                (Exited (reported e r),
                 record (EvFindFirst (toLowerCase e) (toLowerCase u)) w)
            | None =>
                if existsb (whereOr (toLowerCase e) u) (rows w)
                then (Exited EmailOrUsernameTaken, attempted w e u p)
                else (Normal (select (adminRow w e u p)), created w e u p)
            end
        end
    end.

(** Every character class of an expression gives the same answer on [c] and
    on [f c]. *)
Fixpoint classesInvariant (f : ascii -> ascii) (r : regex) : Prop :=
  match r with
  | Void => True
  | Eps => True
  | Class p => forall c, p (f c) = p c
  | Cat r s => classesInvariant f r /\ classesInvariant f s
  | Alt r s => classesInvariant f r /\ classesInvariant f s
  | Star r => classesInvariant f r
  end.

(** ** scripts/test-node-pty.ts

    The top level of the diagnostic script, which runs to its end before any
    callback: the timer and the data listener it sets up are recorded as
    registered, not run. *)
Module PtyTest.

(** What [pty.spawn] throws: [message], and the [code] and [stack] that
    may be absent. *)
Record SpawnError : Type := mkSpawnError {
  sp_message : string;
  sp_code : option string;
  sp_stack : option string
}.

Inductive SpawnResult : Type :=
| Spawned (pid : nat)
| SpawnThrows (error : SpawnError).

(** The machine: [os.platform()], [os.arch()], [process.version],
    [process.env.SHELL], [fs.existsSync] and [pty.spawn] with the fixed
    options of the script. *)
Record Env : Type := mkEnv {
  platform : string;
  arch : string;
  version : string;
  SHELL : option string;
  existsSync : string -> bool;
  spawn : string -> SpawnResult
}.

(** [v || d] on a string that may be undefined. *)
Definition orElse (v : option string) (d : string) : string :=
  match v with
  | Some s => if String.eqb s "" then d else s
  | None => d
  end.

(** [if (v)] on a string that may be undefined. *)
Definition truthy (v : option string) : bool :=
  match v with
  | Some s => negb (String.eqb s "")
  | None => false
  end.

Definition lineFeed : ascii := ascii_of_nat 10.
Definition carriageReturn : ascii := ascii_of_nat 13.

(** [s.split('\n')[0]] *)
Fixpoint firstLine (s : string) : string :=
  match s with
  | EmptyString => EmptyString
  | String c s' => if Ascii.eqb c lineFeed then EmptyString else String c (firstLine s')
  end.

(** [fs.constants.X_OK] *)
Definition X_OK : nat := 1.

(** The command written to a spawned terminal: [echo], the quoted words
    [node-pty works!] and a carriage return. *)
Definition probe : string :=
  "echo " ++ String doubleQuote ("node-pty works!" ++
             String doubleQuote (String carriageReturn "")).

Definition testShells : list string :=
  [ "/bin/zsh"; "/bin/bash"; "/bin/sh";
    "/opt/homebrew/bin/zsh"; "/usr/local/bin/zsh" ].

(** The messages of [console.log], one constructor for each call or group
    of consecutive calls, with the values they interpolate. *)
Inductive Line : Type :=
| Banner
| SystemInfo (platform arch version shell : string)
| CheckingHeader
| Availability (shell : string) (found executable : bool)
| SpawnHeader
| Skipping (shell : string)
| Trying (shell : string)
| SpawnedLine (shell : string) (pid : nat)
| FailedLine (message code : string) (stack : option string)
| AllFailed
| LastErrorDetails (message code : string).

(** The variables [success] and [lastError], the console, and what was
    asked of a terminal or of the timers. *)
Record State : Type := mkState {
  success : bool;
  lastError : option SpawnError;
  console : list Line;
  written : list (nat * string);
  timers : list (nat * nat);
  listeners : list nat
}.

Definition log (l : Line) (st : State) : State :=
  {| success := success st; lastError := lastError st;
     console := console st ++ [l]; written := written st;
     timers := timers st; listeners := listeners st |}.

(** [term.write(data)], [setTimeout(..., delay)] and [term.onData(...)] on
    the terminal of process [pid]. *)
Definition started (pid : nat) (st : State) : State :=
  {| success := success st; lastError := lastError st;
     console := console st; written := written st ++ [(pid, probe)];
     timers := timers st ++ [(pid, 500)]; listeners := listeners st ++ [pid] |}.

Definition failed (error : SpawnError) (st : State) : State :=
  {| success := success st; lastError := Some error;
     console := console st; written := written st;
     timers := timers st; listeners := listeners st |}.

(** The first loop, lines 31-36. *)
Fixpoint availability (env : Env) (shells : list string) (st : State) : State :=
  match shells with
  | [] => st
  | shell :: rest =>
      let found := existsSync env shell in
      let executable :=
        if found then (if X_OK =? 0 then false else true) else false in
      availability env rest (log (Availability shell found executable) st)
  end.

Definition failedLine (error : SpawnError) : Line :=
  FailedLine (sp_message error) (orElse (sp_code error) "N/A")
    (if truthy (sp_stack error)
     then Some (firstLine (orElse (sp_stack error) ""))
     else None).

(** The second loop, lines 43-90: [continue] on a missing shell, [break]
    after the first shell that spawns. *)
Fixpoint spawnLoop (env : Env) (shells : list string) (st : State) : State :=
  match shells with
  | [] => st
  | shell :: rest =>
      if negb (existsSync env shell)
      then spawnLoop env rest (log (Skipping shell) st)
      else
        let st := log (Trying shell) st in
        match spawn env shell with
        | Spawned pid => started pid (log (SpawnedLine shell pid) st)
        | SpawnThrows error =>
            spawnLoop env rest (log (failedLine error) (failed error st))
        end
  end.

(** How the top level ends: [process.exit(code)], or by reaching the end of
    the file with callbacks registered. *)
Inductive Ending : Type :=
| Exits (code : nat)
| Returns.

Definition start (env : Env) : State :=
  {| success := false; lastError := None;
     console := [ Banner;
                  SystemInfo (platform env) (arch env) (version env)
                    (orElse (SHELL env) "not set");
                  CheckingHeader ];
     written := []; timers := []; listeners := [] |}.

Definition script (env : Env) : Ending * State :=
  let st := availability env testShells (start env) in
  let st := log SpawnHeader st in
  let st := spawnLoop env testShells st in
  if negb (success st) then
    let st := log AllFailed st in
    let st :=
      match lastError st with
      | Some error =>
          log (LastErrorDetails (sp_message error)
                 (orElse (sp_code error) "N/A")) st
      | None => st
      end in
    (Exits 1, st)
  else (Returns, st).

(** The lines of the second loop for a shell that is missing or does not
    spawn. *)
Definition missLines (env : Env) (shell : string) : list Line :=
  if negb (existsSync env shell) then [Skipping shell]
  else match spawn env shell with
       | Spawned _ => []
       | SpawnThrows error => [Trying shell; failedLine error]
       end.

(** A shell that the second loop passes: missing, or failing to spawn. *)
Definition passes (env : Env) (shell : string) : Prop :=
  existsSync env shell = false \/ exists error, spawn env shell = SpawnThrows error.

(** The error of the last shell of a list that exists and fails. *)
Fixpoint lastFailure (env : Env) (shells : list string) (acc : option SpawnError)
  : option SpawnError :=
  match shells with
  | [] => acc
  | shell :: rest =>
      if existsSync env shell then
        match spawn env shell with
        | SpawnThrows error => lastFailure env rest (Some error)
        | Spawned _ => lastFailure env rest acc
        end
      else lastFailure env rest acc
  end.

End PtyTest.

(** A machine with [/bin/sh] only, which spawns, and one with [/bin/bash]
    and [/bin/sh], where only the second spawns. *)
Definition onlySh : PtyTest.Env :=
  {| PtyTest.platform := "linux"; PtyTest.arch := "x64";
     PtyTest.version := "v20.11.0"; PtyTest.SHELL := Some "/bin/sh";
     PtyTest.existsSync := fun s => String.eqb s "/bin/sh";
     PtyTest.spawn := fun _ => PtyTest.Spawned 4242 |}.

Definition bashBroken : PtyTest.Env :=
  {| PtyTest.platform := "linux"; PtyTest.arch := "x64";
     PtyTest.version := "v20.11.0"; PtyTest.SHELL := None;
     PtyTest.existsSync :=
       fun s => String.eqb s "/bin/bash" || String.eqb s "/bin/sh";
     PtyTest.spawn :=
       fun s => if String.eqb s "/bin/sh" then PtyTest.Spawned 4242
                else PtyTest.SpawnThrows
                       {| PtyTest.sp_message := "posix_spawnp failed.";
                          PtyTest.sp_code := None;
                          PtyTest.sp_stack := None |} |}.

(** A machine with none of the shells. *)
Definition noShell : PtyTest.Env :=
  {| PtyTest.platform := "linux"; PtyTest.arch := "x64";
     PtyTest.version := "v20.11.0"; PtyTest.SHELL := None;
     PtyTest.existsSync := fun _ => false;
     PtyTest.spawn := fun _ => PtyTest.Spawned 1 |}.

(** The state of the second loop once it has gone past the shells [before],
    none of which spawned. *)
Definition gonePast (env : PtyTest.Env) (before : list string)
    (st : PtyTest.State) : PtyTest.State :=
  {| PtyTest.success := PtyTest.success st;
     PtyTest.lastError := PtyTest.lastFailure env before (PtyTest.lastError st);
     PtyTest.console :=
       PtyTest.console st ++ flat_map (PtyTest.missLines env) before;
     PtyTest.written := PtyTest.written st;
     PtyTest.timers := PtyTest.timers st;
     PtyTest.listeners := PtyTest.listeners st |}.

(** The opening of the console, up to the header of the second loop. *)
Definition ptyOpening (env : PtyTest.Env) : list PtyTest.Line :=
  [ PtyTest.Banner;
    PtyTest.SystemInfo (PtyTest.platform env) (PtyTest.arch env)
      (PtyTest.version env) (PtyTest.orElse (PtyTest.SHELL env) "not set");
    PtyTest.CheckingHeader ] ++
  map (fun s => PtyTest.Availability s (PtyTest.existsSync env s)
                  (PtyTest.existsSync env s)) PtyTest.testShells ++
  [PtyTest.SpawnHeader].

(** The closing report. *)
Definition ptyClosing (last : option PtyTest.SpawnError) : list PtyTest.Line :=
  PtyTest.AllFailed ::
  match last with
  | Some error =>
      [PtyTest.LastErrorDetails (PtyTest.sp_message error)
         (PtyTest.orElse (PtyTest.sp_code error) "N/A")]
  | None => []
  end.

Arguments test : simpl never.

(** ** The literals on sample subjects *)

Example email_ok : test emailRegex "admin@example.com" = true.
Proof. vm_compute. reflexivity. Qed.
Example email_nodot : test emailRegex "admin@example" = false.
Proof. vm_compute. reflexivity. Qed.
Example email_space : test emailRegex "ad min@example.com" = false.
Proof. vm_compute. reflexivity. Qed.
Example email_two_at : test emailRegex "a@b@c.d" = false.
Proof. vm_compute. reflexivity. Qed.
Example email_dots : test emailRegex "a.b@c.d.e" = true.
Proof. vm_compute. reflexivity. Qed.
Example username_ok : test usernameRegex "Admin_01-x" = true.
Proof. vm_compute. reflexivity. Qed.
Example username_bad : test usernameRegex "ad min" = false.
Proof. vm_compute. reflexivity. Qed.
Example special_count : List.length specialChars = 28.
Proof. reflexivity. Qed.
Example special_ok : test specialRegex "SecurePass123!" = true.
Proof. vm_compute. reflexivity. Qed.
Example special_none : test specialRegex "SecurePass123" = false.
Proof. vm_compute. reflexivity. Qed.
Example lower_example : toLowerCase "Admin@Example.COM" = "admin@example.com".
Proof. vm_compute. reflexivity. Qed.

(** ** Lemmas on strings *)

Lemma lowerChar_idem (c : ascii) : lowerChar (lowerChar c) = lowerChar c.
Proof.
  destruct c as [[] [] [] [] [] [] [] []]; vm_compute; reflexivity.
Qed.

Lemma toLowerCase_idem (s : string) : toLowerCase (toLowerCase s) = toLowerCase s.
Proof.
  induction s as [|c s IH]; simpl.
  - reflexivity.
  - now rewrite lowerChar_idem, IH.
Qed.

Lemma toLowerCase_length (s : string) :
  String.length (toLowerCase s) = String.length s.
Proof.
  induction s as [|c s IH]; simpl; [reflexivity | now rewrite IH].
Qed.

Lemma falsy_false (s : string) : s <> "" -> JS.falsy s = false.
Proof.
  intros H. unfold JS.falsy. now apply String.eqb_neq.
Qed.

Lemma length_check (n : nat) :
  (n <? 3) || (20 <? n) = negb ((3 <=? n) && (n <=? 20)).
Proof.
  destruct (Nat.ltb_spec n 3), (Nat.ltb_spec 20 n),
           (Nat.leb_spec 3 n), (Nat.leb_spec n 20); simpl; try reflexivity; lia.
Qed.

Lemma short_check (n m : nat) : (n <? m) = negb (m <=? n).
Proof.
  destruct (Nat.ltb_spec n m), (Nat.leb_spec m n); simpl; try reflexivity; lia.
Qed.

(** ** The matcher and the language of a literal *)

Lemma append_nil_r (s : string) : (s ++ "")%string = s.
Proof. induction s as [|c s IH]; simpl; [reflexivity | now rewrite IH]. Qed.

Lemma append_assoc (x y z : string) : ((x ++ y) ++ z)%string = (x ++ (y ++ z))%string.
Proof. induction x as [|c x IH]; simpl; [reflexivity | now rewrite IH]. Qed.

Lemma append_eq_nil (x y : string) : (x ++ y)%string = "" -> x = "" /\ y = "".
Proof. destruct x; simpl; [auto | discriminate]. Qed.

Lemma append_eq_cons (x y : string) (c : ascii) (s : string) :
  (x ++ y)%string = String c s ->
  (x = "" /\ y = String c s) \/ (exists x', x = String c x' /\ s = (x' ++ y)%string).
Proof.
  destruct x as [|d x]; simpl; intros H.
  - left. auto.
  - right. inversion H; subst. eauto.
Qed.

Lemma lang_cat_inv (r s : regex) (t : string) :
  lang (Cat r s) t -> exists x y, t = (x ++ y)%string /\ lang r x /\ lang s y.
Proof. intros H. inversion H; subst. eauto. Qed.

Lemma lang_alt_inv (r s : regex) (t : string) :
  lang (Alt r s) t -> lang r t \/ lang s t.
Proof. intros H. inversion H; subst; auto. Qed.

Lemma lang_class_inv (p : ascii -> bool) (t : string) :
  lang (Class p) t -> exists c, t = String c "" /\ p c = true.
Proof. intros H. inversion H; subst. eauto. Qed.

Lemma lang_cat_cons (r s : regex) (c : ascii) (x y : string) :
  lang r (String c x) -> lang s y -> lang (Cat r s) (String c (x ++ y)).
Proof.
  intros Hx Hy. change (String c (x ++ y)) with ((String c x ++ y)%string).
  now constructor.
Qed.

Lemma nullable_lang (r : regex) : nullable r = true <-> lang r "".
Proof.
  induction r as [| |p|r1 IH1 r2 IH2|r1 IH1 r2 IH2|r IH]; simpl.
  - split; [discriminate | intros H; inversion H].
  - split; [constructor | reflexivity].
  - split; [discriminate | intros H; inversion H].
  - rewrite andb_true_iff, IH1, IH2. split.
    + intros [H1 H2]. change "" with (("" ++ "")%string). now constructor.
    + intros H. apply lang_cat_inv in H. destruct H as (x & y & Heq & Hx & Hy).
      symmetry in Heq. apply append_eq_nil in Heq. destruct Heq; subst. auto.
  - rewrite orb_true_iff, IH1, IH2. split.
    + intros [H | H]; [now apply LAltL | now apply LAltR].
    + apply lang_alt_inv.
  - split; [constructor | reflexivity].
Qed.

Lemma star_cons_inv (r : regex) (t : string) :
  lang (Star r) t ->
  forall c s, t = String c s ->
  exists x y, s = (x ++ y)%string /\ lang r (String c x) /\ lang (Star r) y.
Proof.
  remember (Star r) as q eqn:Hq. intros H.
  induction H as [| | | | | |r' x y Hx _ Hy IHy]; try discriminate Hq.
  - intros c s Heq. discriminate Heq.
  - injection Hq as Hr. subst r'. intros c s Heq.
    apply append_eq_cons in Heq. destruct Heq as [[-> ->] | (x' & -> & ->)].
    + apply (IHy eq_refl c s eq_refl).
    + exists x', y. auto.
Qed.

Lemma deriv_lang (c : ascii) (r : regex) :
  forall s, lang (deriv c r) s <-> lang r (String c s).
Proof.
  induction r as [| |p|r1 IH1 r2 IH2|r1 IH1 r2 IH2|r IH]; intros s; simpl.
  - split; intros H; inversion H.
  - split; intros H; inversion H.
  - destruct (p c) eqn:Hp; split; intros H.
    + inversion H; subst. now constructor.
    + inversion H; subst. constructor.
    + inversion H.
    + inversion H; subst. congruence.
  - assert (Hcat : lang (Cat (deriv c r1) r2) s ->
                   lang (Cat r1 r2) (String c s)).
    { intros H. apply lang_cat_inv in H. destruct H as (x & y & -> & Hx & Hy).
      apply lang_cat_cons; [now apply IH1 | assumption]. }
    assert (Hinv : lang (Cat r1 r2) (String c s) ->
                   (lang r1 "" /\ lang (deriv c r2) s) \/
                   lang (Cat (deriv c r1) r2) s).
    { intros H. apply lang_cat_inv in H. destruct H as (x & y & Heq & Hx & Hy).
      symmetry in Heq. apply append_eq_cons in Heq.
      destruct Heq as [[-> ->] | (x' & -> & ->)].
      - left. split; [assumption | now apply IH2].
      - right. constructor; [now apply IH1 | assumption]. }
    destruct (nullable r1) eqn:Hn; split; intros H.
    + apply lang_alt_inv in H. destruct H as [H | H].
      * now apply Hcat.
      * apply IH2 in H. apply nullable_lang in Hn.
        change (String c s) with (("" ++ String c s)%string). now constructor.
    + destruct (Hinv H) as [[_ H'] | H']; [now apply LAltR | now apply LAltL].
    + now apply Hcat.
    + destruct (Hinv H) as [[H' _] | H']; [|assumption].
      apply nullable_lang in H'. congruence.
  - split; intros H; apply lang_alt_inv in H; destruct H as [H | H].
    + apply LAltL. now apply IH1.
    + apply LAltR. now apply IH2.
    + apply LAltL. now apply IH1.
    + apply LAltR. now apply IH2.
  - split; intros H.
    + apply lang_cat_inv in H. destruct H as (x & y & -> & Hx & Hy).
      change (String c (x ++ y)%string) with ((String c x ++ y)%string).
      constructor; [now apply IH | assumption].
    + destruct (star_cons_inv r _ H c s eq_refl) as (x & y & -> & Hx & Hy).
      constructor; [now apply IH | assumption].
Qed.

(** The matcher decides the language. *)
Lemma matches_lang (s : string) : forall r, matches r s = true <-> lang r s.
Proof.
  induction s as [|c s IH]; intros r; simpl.
  - apply nullable_lang.
  - rewrite IH. apply deriv_lang.
Qed.

Lemma star_any (s : string) : lang (Star anyChar) s.
Proof.
  induction s as [|c s IH]; [constructor|].
  change (String c s) with ((String c "" ++ s)%string).
  constructor; [now constructor | assumption].
Qed.

Lemma star_class (p : ascii -> bool) (s : string) :
  lang (Star (Class p)) s <-> allChars p s = true.
Proof.
  split.
  - remember (Star (Class p)) as q eqn:Hq. intros H.
    induction H as [| | | | | |r x y Hx _ Hy IHy]; try discriminate Hq.
    + reflexivity.
    + injection Hq as Hr. subst r.
      apply lang_class_inv in Hx. destruct Hx as (c & -> & Hc).
      simpl. rewrite Hc. now apply IHy.
  - induction s as [|c s IH]; simpl; intros H; [constructor|].
    apply andb_true_iff in H. destruct H as [Hc Hs].
    change (String c s) with ((String c "" ++ s)%string).
    constructor; [now constructor | now apply IH].
Qed.

Lemma plus_class (p : ascii -> bool) (s : string) :
  lang (Plus (Class p)) s <-> s <> "" /\ allChars p s = true.
Proof.
  unfold Plus. split.
  - intros H. apply lang_cat_inv in H. destruct H as (x & y & -> & Hx & Hy).
    apply lang_class_inv in Hx. destruct Hx as (c & -> & Hc).
    apply star_class in Hy. simpl. rewrite Hc, Hy. split; [discriminate | reflexivity].
  - intros [Hne H]. destruct s as [|c s]; [congruence|].
    simpl in H. apply andb_true_iff in H. destruct H as [Hc Hs].
    change (String c s) with ((String c "" ++ s)%string).
    constructor; [now constructor | now apply star_class].
Qed.

Lemma someChar_split (p : ascii -> bool) (s : string) :
  someChar p s = true <->
  exists a c b, s = (a ++ String c b)%string /\ p c = true.
Proof.
  induction s as [|d s IH]; simpl.
  - split; [discriminate|]. intros (a & c & b & H & _).
    destruct a; discriminate H.
  - rewrite orb_true_iff, IH. split.
    + intros [H | (a & c & b & -> & H)].
      * exists "", d, s. auto.
      * exists (String d a), c, b. auto.
    + intros (a & c & b & Heq & H). destruct a as [|d' a]; simpl in Heq.
      * injection Heq as -> ->. auto.
      * injection Heq as -> ->. right. eauto.
Qed.

(** An unanchored one-class literal asks for one character of the class. *)
Lemma test_floating_class (p : ascii -> bool) (s : string) :
  test (Floating (Class p)) s = someChar p s.
Proof.
  apply Bool.eq_iff_eq_true. unfold test.
  rewrite matches_lang, someChar_split. split.
  - intros H. apply lang_cat_inv in H. destruct H as (a & y & -> & _ & H).
    apply lang_cat_inv in H. destruct H as (x & b & -> & Hx & _).
    apply lang_class_inv in Hx. destruct Hx as (c & -> & Hc).
    exists a, c, b. auto.
  - intros (a & c & b & -> & Hc).
    constructor; [apply star_any|].
    change (String c b) with ((String c "" ++ b)%string).
    constructor; [now constructor | apply star_any].
Qed.

(** The username literal: one or more characters, all of the class. *)
Lemma test_usernameRegex (s : string) :
  test usernameRegex s = negb (String.eqb s "") && allChars isUsernameChar s.
Proof.
  apply Bool.eq_iff_eq_true. unfold test, usernameRegex.
  rewrite matches_lang, plus_class, andb_true_iff, negb_true_iff, String.eqb_neq.
  reflexivity.
Qed.

(** The email literal: a local part, an at sign, and a domain with a dot
    inside; the three pieces are non-empty and hold no white space and no
    at sign. *)
Lemma test_emailRegex (s : string) :
  test emailRegex s = true <->
  exists l d t,
    s = (l ++ "@" ++ d ++ "." ++ t)%string /\
    l <> "" /\ d <> "" /\ t <> "" /\
    allChars notSpaceAt l = true /\
    allChars notSpaceAt d = true /\
    allChars notSpaceAt t = true.
Proof.
  unfold test, emailRegex. rewrite matches_lang. split.
  - intros H.
    apply lang_cat_inv in H. destruct H as (l & y & -> & Hl & H).
    apply lang_cat_inv in H. destruct H as (a & y' & -> & Ha & H).
    apply lang_cat_inv in H. destruct H as (d & y'' & -> & Hd & H).
    apply lang_cat_inv in H. destruct H as (b & t & -> & Hb & Ht).
    apply lang_class_inv in Ha. destruct Ha as (c & -> & Hc).
    apply lang_class_inv in Hb. destruct Hb as (c' & -> & Hc').
    unfold isChar in Hc, Hc'. apply Ascii.eqb_eq in Hc, Hc'. subst c c'.
    apply plus_class in Hl, Hd, Ht.
    exists l, d, t. tauto.
  - intros (l & d & t & -> & Hl & Hd & Ht & Al & Ad & At).
    constructor; [apply plus_class; auto|].
    constructor; [now constructor|].
    constructor; [apply plus_class; auto|].
    constructor; [now constructor|].
    apply plus_class; auto.
Qed.

(** ** The validation blocks follow the policy *)

Ltac by_cases_on_checks :=
  repeat match goal with
         | |- context [test ?r ?s] => destruct (test r s)
         | |- context [?n <=? String.length ?s] => destruct (n <=? String.length s)
         | |- context [String.length ?s <=? ?n] => destruct (String.length s <=? n)
         end;
  reflexivity.

Lemma ts_validation_run (e u p : string) (w : World) :
  TS.validation e u p w = verdict (firstViolation 8 e u p) w.
Proof.
  unfold TS.validation, firstViolation, rules, verdict, bind, when, exit1, ret.
  rewrite length_check, short_check. cbn [find holds].
  by_cases_on_checks.
Qed.

Lemma js_validation_run (e u p : string) (w : World) :
  JS.validation e u p w =
  if JS.falsy e || JS.falsy u || JS.falsy p then (Exited MissingRequired, w)
  else verdict (firstViolation 12 e u p) w.
Proof.
  unfold JS.validation, firstViolation, rules, verdict, bind, when, exit1, ret.
  rewrite length_check, short_check. cbn [find holds].
  destruct (JS.falsy e || JS.falsy u || JS.falsy p); [reflexivity|].
  by_cases_on_checks.
Qed.

Lemma firstViolation_None (m : nat) (e u p : string) :
  firstViolation m e u p = None ->
  test emailRegex e = true /\ test usernameRegex u = true /\
  (3 <=? String.length u) && (String.length u <=? 20) = true /\
  (m <=? String.length p) = true /\
  test upperRegex p = true /\ test lowerRegex p = true /\
  test digitRegex p = true /\ test specialRegex p = true.
Proof.
  unfold firstViolation, rules. cbn [find holds].
  destruct (test emailRegex e); [|discriminate].
  destruct (test usernameRegex u); [|discriminate].
  destruct ((3 <=? String.length u) && (String.length u <=? 20)); [|discriminate].
  destruct (m <=? String.length p); [|discriminate].
  destruct (test upperRegex p); [|discriminate].
  destruct (test lowerRegex p); [|discriminate].
  destruct (test digitRegex p); [|discriminate].
  destruct (test specialRegex p); [|discriminate].
  intros _. repeat split.
Qed.

Lemma firstViolation_kind (m : nat) (e u p : string) (f : Failure) :
  firstViolation m e u p = Some f -> isValidationKind f = true.
Proof.
  unfold firstViolation, rules. cbn [find holds].
  repeat match goal with
         | |- context [negb ?b] => destruct b; cbn [negb]
         end;
  cbn [option_map kind]; intros H; inversion H; reflexivity.
Qed.

Lemma valid_nonempty (m : nat) (e u p : string) :
  0 < m -> firstViolation m e u p = None ->
  JS.falsy e || JS.falsy u || JS.falsy p = false.
Proof.
  intros Hm H. apply firstViolation_None in H.
  destruct H as (He & Hu & _ & Hp & _).
  destruct e; [vm_compute in He; discriminate|].
  destruct u; [vm_compute in Hu; discriminate|].
  destruct p; [simpl in Hp; apply Nat.leb_le in Hp; lia|].
  reflexivity.
Qed.

(** ** The lookup and its two comparisons *)

Lemma selectFirst_some (ek uk : string) (rs : list User.t) (r : User.t) :
  selectFirst ek uk rs = Some r -> In r rs /\ whereOr ek uk r = true.
Proof.
  unfold selectFirst, whereOr.
  destruct (find (fun r => String.eqb (User.email r) ek) rs) as [r0|] eqn:He.
  - intros H. injection H as <-. apply find_some in He.
    destruct He as [Hin ->]. auto.
  - intros H. apply find_some in H. destruct H as [Hin ->].
    split; [assumption | apply orb_true_r].
Qed.

Lemma selectFirst_none (ek uk : string) (rs : list User.t) :
  selectFirst ek uk rs = None ->
  forall r, In r rs -> whereOr ek uk r = false.
Proof.
  unfold selectFirst, whereOr.
  destruct (find (fun r => String.eqb (User.email r) ek) rs) as [r0|] eqn:He;
    [discriminate|].
  intros Hu r Hin.
  now rewrite (find_none _ _ He r Hin), (find_none _ _ Hu r Hin).
Qed.


(** A row selected by the [where] clause passes one of the comparisons that
    follow the lookup. *)
Lemma whereOr_comparisons (e u : string) (r : User.t) :
  whereOr (toLowerCase e) (toLowerCase u) r = true ->
  String.eqb (toLowerCase (User.email r)) (toLowerCase e) = true \/
  String.eqb (toLowerCase (User.username r)) (toLowerCase u) = true.
Proof.
  unfold whereOr. intros H. apply orb_true_iff in H.
  destruct H as [H | H]; apply String.eqb_eq in H; [left | right];
    rewrite H, toLowerCase_idem; apply String.eqb_refl.
Qed.

Lemma checkExisting_hit (e u : string) (w : World) (r : User.t) :
  fault w = None ->
  selectFirst (toLowerCase e) (toLowerCase u) (rows w) = Some r ->
  TS.checkExisting e u w =
  (Exited (reported e r), record (EvFindFirst (toLowerCase e) (toLowerCase u)) w).
Proof.
  intros Hf Hr. unfold TS.checkExisting, bind, findFirst.
  rewrite Hf, Hr. unfold when, exit1, ret, reported.
  destruct (String.eqb (toLowerCase (User.email r)) (toLowerCase e)) eqn:He.
  - reflexivity.
  - apply selectFirst_some in Hr. destruct Hr as [_ Hr].
    apply whereOr_comparisons in Hr. destruct Hr as [Hr | Hr].
    + congruence.
    + now rewrite Hr.
Qed.

Lemma checkExisting_miss (e u : string) (w : World) :
  fault w = None ->
  selectFirst (toLowerCase e) (toLowerCase u) (rows w) = None ->
  TS.checkExisting e u w =
  (Normal tt, record (EvFindFirst (toLowerCase e) (toLowerCase u)) w).
Proof.
  intros Hf Hr. unfold TS.checkExisting, bind, findFirst.
  now rewrite Hf, Hr.
Qed.

Lemma checkExisting_fault (e u : string) (w : World) (err : PrismaError) :
  fault w = Some err ->
  TS.checkExisting e u w =
  (Thrown err, record (EvFindFirst (toLowerCase e) (toLowerCase u)) w).
Proof.
  intros Hf. unfold TS.checkExisting, bind, findFirst. now rewrite Hf.
Qed.

Lemma js_checkExisting_eq : JS.checkExisting = TS.checkExisting.
Proof. reflexivity. Qed.

(** ** Runs of [createAdminUser] *)

Section Runs.

Variables (e u p : string) (w : World).

Lemma ts_run_rejected (f : Failure) :
  firstViolation 8 e u p = Some f ->
  TS.createAdminUser e u p w = (Exited f, w).
Proof.
  intros H. unfold TS.createAdminUser, tryCatchFinally, bind.
  rewrite ts_validation_run, H. reflexivity.
Qed.

Lemma ts_run_conflict (r : User.t) :
  firstViolation 8 e u p = None ->
  fault w = None ->
  selectFirst (toLowerCase e) (toLowerCase u) (rows w) = Some r ->
  TS.createAdminUser e u p w =
  (Exited (reported e r), record (EvFindFirst (toLowerCase e) (toLowerCase u)) w).
Proof.
  intros H Hf Hr. unfold TS.createAdminUser, tryCatchFinally, bind.
  rewrite ts_validation_run, H. cbn [verdict].
  rewrite (checkExisting_hit _ _ _ r Hf Hr). reflexivity.
Qed.

Lemma ts_run_fault (err : PrismaError) :
  firstViolation 8 e u p = None ->
  fault w = Some err ->
  TS.createAdminUser e u p w =
  TS.handler err (record (EvFindFirst (toLowerCase e) (toLowerCase u)) w).
Proof.
  intros H Hf. unfold TS.createAdminUser, tryCatchFinally, bind.
  rewrite ts_validation_run, H. cbn [verdict].
  rewrite (checkExisting_fault _ _ _ err Hf).
  unfold TS.handler, exit1.
  destruct (hasCode err "P2002"); [reflexivity|].
  destruct (hasCode err "P1001"); [reflexivity|].
  destruct (hasCode err "P2021"); reflexivity.
Qed.

Lemma ts_run_created :
  firstViolation 8 e u p = None ->
  fault w = None ->
  selectFirst (toLowerCase e) (toLowerCase u) (rows w) = None ->
  existsb (whereOr (toLowerCase e) u) (rows w) = false ->
  TS.createAdminUser e u p w =
  (Normal (select (adminRow w e u p)), created w e u p).
Proof.
  intros H Hf Hr Hx. unfold TS.createAdminUser, tryCatchFinally, bind.
  rewrite ts_validation_run, H. cbn [verdict].
  rewrite (checkExisting_miss _ _ _ Hf Hr).
  unfold bcrypt_hash, create, TS.SALT_ROUNDS. cbn.
  rewrite Hf, Hx. reflexivity.
Qed.

Lemma ts_run_duplicate :
  firstViolation 8 e u p = None ->
  fault w = None ->
  selectFirst (toLowerCase e) (toLowerCase u) (rows w) = None ->
  existsb (whereOr (toLowerCase e) u) (rows w) = true ->
  TS.createAdminUser e u p w = (Exited EmailOrUsernameTaken, attempted w e u p).
Proof.
  intros H Hf Hr Hx. unfold TS.createAdminUser, tryCatchFinally, bind.
  rewrite ts_validation_run, H. cbn [verdict].
  rewrite (checkExisting_miss _ _ _ Hf Hr).
  unfold bcrypt_hash, create, TS.SALT_ROUNDS. cbn.
  rewrite Hf, Hx. reflexivity.
Qed.

End Runs.

Section RunsJS.

Variables (e u p : string) (w : World).

Lemma js_run_required :
  JS.falsy e || JS.falsy u || JS.falsy p = true ->
  JS.createAdminUser e u p w = (Exited MissingRequired, w).
Proof.
  intros H. unfold JS.createAdminUser, tryCatchFinally, bind.
  rewrite js_validation_run, H. reflexivity.
Qed.

Lemma js_run_rejected (f : Failure) :
  JS.falsy e || JS.falsy u || JS.falsy p = false ->
  firstViolation 12 e u p = Some f ->
  JS.createAdminUser e u p w = (Exited f, w).
Proof.
  intros Hn H. unfold JS.createAdminUser, tryCatchFinally, bind.
  rewrite js_validation_run, Hn, H. reflexivity.
Qed.

Lemma js_validation_passed :
  firstViolation 12 e u p = None -> JS.validation e u p w = (Normal tt, w).
Proof.
  intros H. rewrite js_validation_run, (valid_nonempty 12), H by (lia || assumption).
  reflexivity.
Qed.

Lemma js_run_conflict (r : User.t) :
  firstViolation 12 e u p = None ->
  fault w = None ->
  selectFirst (toLowerCase e) (toLowerCase u) (rows w) = Some r ->
  JS.createAdminUser e u p w =
  (Exited (reported e r), record (EvFindFirst (toLowerCase e) (toLowerCase u)) w).
Proof.
  intros H Hf Hr. unfold JS.createAdminUser, tryCatchFinally, bind.
  rewrite (js_validation_passed H), js_checkExisting_eq.
  rewrite (checkExisting_hit _ _ _ r Hf Hr). reflexivity.
Qed.

Lemma js_run_fault (err : PrismaError) :
  firstViolation 12 e u p = None ->
  fault w = Some err ->
  JS.createAdminUser e u p w =
  JS.handler err (record (EvFindFirst (toLowerCase e) (toLowerCase u)) w).
Proof.
  intros H Hf. unfold JS.createAdminUser, tryCatchFinally, bind.
  rewrite (js_validation_passed H), js_checkExisting_eq.
  rewrite (checkExisting_fault _ _ _ err Hf).
  unfold JS.handler, exit1.
  destruct (hasCode err "P2002"); [reflexivity|].
  destruct (hasCode err "P1001"); reflexivity.
Qed.

Lemma js_run_created :
  firstViolation 12 e u p = None ->
  fault w = None ->
  selectFirst (toLowerCase e) (toLowerCase u) (rows w) = None ->
  existsb (whereOr (toLowerCase e) u) (rows w) = false ->
  JS.createAdminUser e u p w =
  (Normal (select (adminRow w e u p)), created w e u p).
Proof.
  intros H Hf Hr Hx. unfold JS.createAdminUser, tryCatchFinally, bind.
  rewrite (js_validation_passed H), js_checkExisting_eq.
  rewrite (checkExisting_miss _ _ _ Hf Hr).
  unfold bcrypt_hash, create, JS.SALT_ROUNDS. cbn.
  rewrite Hf, Hx. reflexivity.
Qed.

Lemma js_run_duplicate :
  firstViolation 12 e u p = None ->
  fault w = None ->
  selectFirst (toLowerCase e) (toLowerCase u) (rows w) = None ->
  existsb (whereOr (toLowerCase e) u) (rows w) = true ->
  JS.createAdminUser e u p w = (Exited EmailOrUsernameTaken, attempted w e u p).
Proof.
  intros H Hf Hr Hx. unfold JS.createAdminUser, tryCatchFinally, bind.
  rewrite (js_validation_passed H), js_checkExisting_eq.
  rewrite (checkExisting_miss _ _ _ Hf Hr).
  unfold bcrypt_hash, create, JS.SALT_ROUNDS. cbn.
  rewrite Hf, Hx. reflexivity.
Qed.

End RunsJS.

Lemma ts_handler_exits (err : PrismaError) (w : World) :
  exists f, TS.handler err w = (Exited f, w).
Proof.
  unfold TS.handler, exit1.
  destruct (hasCode err "P2002"); [eauto|].
  destruct (hasCode err "P1001"); [eauto|].
  destruct (hasCode err "P2021"); eauto.
Qed.

Lemma js_handler_exits (err : PrismaError) (w : World) :
  exists f, JS.handler err w = (Exited f, w).
Proof.
  unfold JS.handler, exit1.
  destruct (hasCode err "P2002"); [eauto|].
  destruct (hasCode err "P1001"); eauto.
Qed.

(** Every run that ends normally went through the whole pipeline. *)
Lemma ts_run_normal (e u p : string) (w : World) (s : Selected) :
  outcome (TS.createAdminUser e u p w) = Normal s ->
  TS.createAdminUser e u p w = (Normal (select (adminRow w e u p)), created w e u p).
Proof.
  intros H.
  destruct (firstViolation 8 e u p) as [f|] eqn:Hv.
  { rewrite (ts_run_rejected _ _ _ _ f Hv) in H. discriminate. }
  destruct (fault w) as [err|] eqn:Hf.
  { rewrite (ts_run_fault _ _ _ _ err Hv Hf) in H.
    destruct (ts_handler_exits err
                (record (EvFindFirst (toLowerCase e) (toLowerCase u)) w)) as [f Hh].
    rewrite Hh in H. discriminate. }
  destruct (selectFirst (toLowerCase e) (toLowerCase u) (rows w)) as [r|] eqn:Hr.
  { rewrite (ts_run_conflict _ _ _ _ r Hv Hf Hr) in H. discriminate. }
  destruct (existsb (whereOr (toLowerCase e) u) (rows w)) eqn:Hx.
  { rewrite (ts_run_duplicate _ _ _ _ Hv Hf Hr Hx) in H. discriminate. }
  apply ts_run_created; assumption.
Qed.

Lemma js_run_normal (e u p : string) (w : World) (s : Selected) :
  outcome (JS.createAdminUser e u p w) = Normal s ->
  JS.createAdminUser e u p w = (Normal (select (adminRow w e u p)), created w e u p).
Proof.
  intros H.
  destruct (JS.falsy e || JS.falsy u || JS.falsy p) eqn:Hn.
  { rewrite (js_run_required _ _ _ _ Hn) in H. discriminate. }
  destruct (firstViolation 12 e u p) as [f|] eqn:Hv.
  { rewrite (js_run_rejected _ _ _ _ f Hn Hv) in H. discriminate. }
  destruct (fault w) as [err|] eqn:Hf.
  { rewrite (js_run_fault _ _ _ _ err Hv Hf) in H.
    destruct (js_handler_exits err
                (record (EvFindFirst (toLowerCase e) (toLowerCase u)) w)) as [f Hh].
    rewrite Hh in H. discriminate. }
  destruct (selectFirst (toLowerCase e) (toLowerCase u) (rows w)) as [r|] eqn:Hr.
  { rewrite (js_run_conflict _ _ _ _ r Hv Hf Hr) in H. discriminate. }
  destruct (existsb (whereOr (toLowerCase e) u) (rows w)) eqn:Hx.
  { rewrite (js_run_duplicate _ _ _ _ Hv Hf Hr Hx) in H. discriminate. }
  apply js_run_created; assumption.
Qed.

Lemma reported_cases (e : string) (r : User.t) :
  reported e r = EmailTaken \/ reported e r = UsernameTaken.
Proof.
  unfold reported.
  destruct (String.eqb (toLowerCase (User.email r)) (toLowerCase e)); auto.
Qed.

(** A row that the query selects exists in the table exactly when the
    lookup returns some row. *)
Lemma lookup_finds (ek uk : string) (rs : list User.t) (r : User.t) :
  In r rs -> whereOr ek uk r = true ->
  exists r', selectFirst ek uk rs = Some r'.
Proof.
  intros Hin Hm.
  destruct (selectFirst ek uk rs) as [r'|] eqn:Hr; [eauto|].
  pose proof (selectFirst_none _ _ _ Hr r Hin) as Hn. congruence.
Qed.

Lemma whereOr_exact (ek uk : string) (r : User.t) :
  whereOr ek uk r = true <-> User.email r = ek \/ User.username r = uk.
Proof.
  unfold whereOr. rewrite orb_true_iff, !String.eqb_eq. tauto.
Qed.

(** ** Entry point *)

(** C10. With fewer than three positional arguments both scripts report the
    missing-arguments usage error and exit with status 1; the world is left
    as it was, so no validation, lookup, hashing or creation took place. *)
Theorem missing_arguments_exit (args : list string) (w : World) :
  List.length args < 3 ->
  TS.main args w = (Exited MissingArguments, w) /\
  JS.main args w = (Exited MissingArguments, w).
Proof.
  intros H. unfold TS.main, JS.main.
  apply Nat.ltb_lt in H. rewrite H. split; reflexivity.
Qed.

Lemma missing_arguments_exit_witness :
  TS.main ["admin@example.com"; "admin"] oneAdmin = (Exited MissingArguments, oneAdmin) /\
  JS.main ["admin@example.com"; "admin"] oneAdmin = (Exited MissingArguments, oneAdmin).
Proof.
  apply (missing_arguments_exit ["admin@example.com"; "admin"] oneAdmin).
  simpl. lia.
Defined.

(** ** Validation *)

Lemma firstViolation_threshold (m n : nat) (e u p : string) :
  (m <=? String.length p) = (n <=? String.length p) ->
  firstViolation m e u p = firstViolation n e u p.
Proof.
  intros H. unfold firstViolation, rules. cbn [find holds].
  rewrite H. by_cases_on_checks.
Qed.

(** C8. On candidates whose three fields are non-empty and whose secret has
    at most 7 or at least 12 characters, the validation blocks of the two
    scripts complete in the same way: both accept, or both exit with the
    same failure. *)
Theorem validation_agrees_outside_8_to_11 (e u p : string) (w : World) :
  e <> "" -> u <> "" -> p <> "" ->
  String.length p <= 7 \/ 12 <= String.length p ->
  TS.validation e u p w = JS.validation e u p w.
Proof.
  intros He Hu Hp Hlen.
  rewrite ts_validation_run, js_validation_run.
  rewrite (falsy_false e He), (falsy_false u Hu), (falsy_false p Hp).
  cbn [orb]. f_equal. apply firstViolation_threshold.
  destruct (Nat.leb_spec 8 (String.length p)), (Nat.leb_spec 12 (String.length p));
    try reflexivity; lia.
Qed.

Lemma validation_agrees_outside_8_to_11_witness :
  TS.validation "admin@example.com" "admin" "short1!" emptyWorld =
  JS.validation "admin@example.com" "admin" "short1!" emptyWorld.
Proof.
  apply (validation_agrees_outside_8_to_11
           "admin@example.com" "admin" "short1!" emptyWorld);
    [discriminate | discriminate | discriminate | simpl; lia].
Defined.

(** Between 8 and 11 characters the scripts part ways. *)
Example validation_differs_at_10 :
  TS.validation "admin@example.com" "admin" "Secure123!" emptyWorld =
    (Normal tt, emptyWorld) /\
  JS.validation "admin@example.com" "admin" "Secure123!" emptyWorld =
    (Exited PasswordTooShort, emptyWorld).
Proof. split; vm_compute; reflexivity. Qed.

(** The rules are tried in the order of the specification. *)
Example rules_order :
  map kind (rules 8) =
  [InvalidEmailFormat; InvalidUsernameFormat; InvalidUsernameLength;
   PasswordTooShort; PasswordMissingUppercase; PasswordMissingLowercase;
   PasswordMissingDigit; PasswordMissingSpecialChar].
Proof. reflexivity. Qed.

Lemma find_first {A : Type} (P : A -> bool) (l : list A) (x : A) :
  find P l = Some x <->
  exists l1 l2, l = l1 ++ x :: l2 /\ P x = true /\
                forall y, In y l1 -> P y = false.
Proof.
  induction l as [|a l IH]; simpl.
  - split; [discriminate|]. intros (l1 & l2 & H & _). destruct l1; discriminate H.
  - destruct (P a) eqn:Ha.
    + split.
      * intros H. injection H as <-. exists [], l. simpl. tauto.
      * intros (l1 & l2 & H & Hx & Hl1). destruct l1 as [|b l1]; simpl in H.
        -- injection H as -> _. reflexivity.
        -- injection H as -> _. rewrite (Hl1 b) in Ha by (left; reflexivity).
           discriminate.
    + rewrite IH. split.
      * intros (l1 & l2 & -> & Hx & Hl1). exists (a :: l1), l2.
        split; [reflexivity|]. split; [assumption|].
        intros y [<- | Hy]; auto.
      * intros (l1 & l2 & H & Hx & Hl1). destruct l1 as [|b l1]; simpl in H.
        -- injection H as -> _. congruence.
        -- injection H as -> ->. exists l1, l2.
           split; [reflexivity|]. split; [assumption|].
           intros y Hy. apply Hl1. now right.
Qed.

(** [firstViolation] names the first rule of the list that the candidate
    does not satisfy: the rules before it hold. *)
Lemma firstViolation_first (m : nat) (e u p : string) (f : Failure) :
  firstViolation m e u p = Some f <->
  exists before r after,
    rules m = before ++ r :: after /\ kind r = f /\
    holds r e u p = false /\
    forall r', In r' before -> holds r' e u p = true.
Proof.
  unfold firstViolation. split.
  - destruct (find (fun r => negb (holds r e u p)) (rules m)) as [r|] eqn:Hr;
      [|discriminate].
    intros H. injection H as <-.
    apply find_first in Hr. destruct Hr as (l1 & l2 & Hl & Hx & Hl1).
    exists l1, r, l2. split; [assumption|]. split; [reflexivity|].
    split; [now apply negb_true_iff|].
    intros r' Hin. apply negb_false_iff. now apply Hl1.
  - intros (l1 & r & l2 & Hl & <- & Hx & Hl1).
    assert (Hr : find (fun r => negb (holds r e u p)) (rules m) = Some r).
    { apply find_first. exists l1, l2. split; [assumption|].
      split; [now apply negb_true_iff|].
      intros y Hy. apply negb_false_iff. now apply Hl1. }
    now rewrite Hr.
Qed.

(** A candidate that breaks one rule and no rule of another kind is
    rejected with the failure of that rule. *)
Lemma single_violation (m : nat) (e u p : string) (r : Rule) :
  In r (rules m) ->
  holds r e u p = false ->
  (forall r', In r' (rules m) -> kind r' <> kind r -> holds r' e u p = true) ->
  firstViolation m e u p = Some (kind r).
Proof.
  intros Hin Hfail Hothers.
  assert (Hall : Forall (fun r' => kind r' <> kind r -> holds r' e u p = true)
                        (rules m)).
  { apply Forall_forall. intros r' Hr'. now apply Hothers. }
  unfold firstViolation, rules in *.
  repeat match goal with
         | H : Forall _ (_ :: _) |- _ =>
             let H1 := fresh "Hrule" in
             apply Forall_cons_iff in H; destruct H as [H1 H]
         end.
  clear Hall Hothers.
  cbn [In] in Hin.
  repeat destruct Hin as [<- | Hin]; try contradiction;
    cbn [holds kind] in *;
    repeat match goal with
           | H : ?a <> ?b -> _ |- _ =>
               first [ specialize (H ltac:(discriminate)) | clear H ]
           end;
    cbn [find holds];
    repeat match goal with
           | H : ?b = _ |- _ => rewrite H; clear H
           end;
    reflexivity.
Qed.

(** C2, as the scripts have it. The TypeScript script completes its
    validation with the failure of the first rule, in the order of [rules],
    that the candidate does not satisfy, and normally when there is none;
    the JavaScript script does the same on candidates whose three fields are
    non-empty, and reports a missing required field before any rule when one
    of them is empty. *)
Theorem validation_first_violation (e u p : string) (w : World) :
  (TS.validation e u p w = verdict (firstViolation 8 e u p) w /\
   forall f, firstViolation 8 e u p = Some f ->
     TS.createAdminUser e u p w = (Exited f, w)) /\
  (e <> "" -> u <> "" -> p <> "" ->
   JS.validation e u p w = verdict (firstViolation 12 e u p) w /\
   forall f, firstViolation 12 e u p = Some f ->
     JS.createAdminUser e u p w = (Exited f, w)) /\
  (e = "" \/ u = "" \/ p = "" ->
   JS.validation e u p w = (Exited MissingRequired, w) /\
   JS.createAdminUser e u p w = (Exited MissingRequired, w)).
Proof.
  split; [split; [apply ts_validation_run | apply ts_run_rejected]|].
  split.
  - intros He Hu Hp.
    assert (Hn : JS.falsy e || JS.falsy u || JS.falsy p = false).
    { now rewrite (falsy_false e He), (falsy_false u Hu), (falsy_false p Hp). }
    split.
    + now rewrite js_validation_run, Hn.
    + intros f Hv. now apply js_run_rejected.
  - intros H.
    assert (Hn : JS.falsy e || JS.falsy u || JS.falsy p = true).
    { unfold JS.falsy. destruct H as [H | [H | H]]; subst; cbn;
        rewrite ?orb_true_r; reflexivity. }
    split.
    + now rewrite js_validation_run, Hn.
    + now apply js_run_required.
Qed.

Lemma validation_first_violation_witness :
  JS.createAdminUser "admin@example.com" "ab" "SecurePass123!" emptyWorld =
    (Exited InvalidUsernameLength, emptyWorld) /\
  JS.createAdminUser "admin@example.com" "" "SecurePass123!" emptyWorld =
    (Exited MissingRequired, emptyWorld).
Proof.
  pose proof (validation_first_violation
                "admin@example.com" "ab" "SecurePass123!" emptyWorld) as [_ [H _]].
  pose proof (validation_first_violation
                "admin@example.com" "" "SecurePass123!" emptyWorld) as [_ [_ H']].
  split.
  - apply H; [discriminate | discriminate | discriminate |].
    vm_compute. reflexivity.
  - apply H'. right. left. reflexivity.
Defined.

(** C2, counterexample. The username is empty: the first rule it breaks is
    the username character rule, but the JavaScript script reports a missing
    required field. *)
Lemma js_required_before_rules :
  firstViolation 12 "admin@example.com" "" "SecurePass123!" =
    Some InvalidUsernameFormat /\
  outcome (JS.createAdminUser "admin@example.com" "" "SecurePass123!" emptyWorld) =
    Exited MissingRequired /\
  outcome (TS.createAdminUser "admin@example.com" "" "SecurePass123!" emptyWorld) =
    Exited InvalidUsernameFormat /\
  ~ reportsFirstViolation 12 JS.createAdminUser.
Proof.
  split; [vm_compute; reflexivity|].
  split; [vm_compute; reflexivity|].
  split; [vm_compute; reflexivity|].
  intros H.
  specialize (H "admin@example.com" "" "SecurePass123!" emptyWorld
                InvalidUsernameFormat).
  assert (Hv : firstViolation 12 "admin@example.com" "" "SecurePass123!" =
               Some InvalidUsernameFormat) by (vm_compute; reflexivity).
  specialize (H Hv). vm_compute in H. discriminate H.
Qed.

(** ** Uniqueness check *)

Lemma findFirst_returns (ek uk : string) (w w' : World) (r : User.t) :
  findFirst ek uk w = (Normal (Some r), w') ->
  fault w = None /\ selectFirst ek uk (rows w) = Some r /\
  w' = record (EvFindFirst ek uk) w.
Proof.
  unfold findFirst. destruct (fault w); intros H; inversion H; auto.
Qed.

(** C9. When the lookup before the creation returns a row, that row passes
    the email comparison or the username comparison, so both scripts leave
    the block through one of the two conflict exits: a validated candidate
    is reported as [EmailTaken] or [UsernameTaken], and nothing is hashed or
    created after the lookup. *)
Theorem found_row_is_reported (e u p : string) (w w' : World) (r : User.t) :
  findFirst (toLowerCase e) (toLowerCase u) w = (Normal (Some r), w') ->
  (String.eqb (toLowerCase (User.email r)) (toLowerCase e) ||
   String.eqb (toLowerCase (User.username r)) (toLowerCase u) = true) /\
  (exists f, (f = EmailTaken \/ f = UsernameTaken) /\
     TS.checkExisting e u w = (Exited f, w') /\
     JS.checkExisting e u w = (Exited f, w') /\
     (firstViolation 8 e u p = None ->
      TS.createAdminUser e u p w = (Exited f, w')) /\
     (firstViolation 12 e u p = None ->
      JS.createAdminUser e u p w = (Exited f, w'))) /\
  rows w' = rows w /\
  events w' = events w ++ [EvFindFirst (toLowerCase e) (toLowerCase u)].
Proof.
  intros H. apply findFirst_returns in H. destruct H as (Hf & Hr & ->).
  split.
  { apply orb_true_iff, whereOr_comparisons.
    apply selectFirst_some in Hr. apply Hr. }
  split; [|split; reflexivity].
  exists (reported e r). split; [apply reported_cases|].
  split; [apply checkExisting_hit; assumption|].
  split; [rewrite js_checkExisting_eq; apply checkExisting_hit; assumption|].
  split; intros Hv.
  - apply ts_run_conflict; assumption.
  - apply js_run_conflict; assumption.
Qed.

Lemma found_row_is_reported_witness :
  exists f, (f = EmailTaken \/ f = UsernameTaken) /\
    TS.createAdminUser "Root@Example.com" "newadmin" "SecurePass123!" oneAdmin =
      (Exited f, record (EvFindFirst "root@example.com" "newadmin") oneAdmin).
Proof.
  destruct (found_row_is_reported
              "Root@Example.com" "newadmin" "SecurePass123!" oneAdmin
              (record (EvFindFirst "root@example.com" "newadmin") oneAdmin)
              rootRow) as (_ & (f & Hf & _ & _ & Hts & _) & _).
  - vm_compute. reflexivity.
  - exists f. split; [exact Hf|]. apply Hts. vm_compute. reflexivity.
Defined.

(** ** Order of the stages *)

(** C3, at the failing input. The table holds the username [Admin]. A valid
    candidate brings the same username with another email: its normalised
    username collides with the stored one, but the lookup compares the
    stored [Admin] with the key [admin] and finds nothing, so the
    TypeScript script hashes the secret and calls [create] before the
    unique index refuses the row. With the username [admin] the index does
    not refuse and the account is created. *)
Theorem conflicting_username_is_hashed :
  In rootRow (rows oneAdmin) /\
  firstViolation 8 "new@example.com" "Admin" "SecurePass123!" = None /\
  collidesUsername "Admin" rootRow /\
  outcome (TS.createAdminUser "new@example.com" "Admin" "SecurePass123!" oneAdmin)
    = Exited EmailOrUsernameTaken /\
  events (final (TS.createAdminUser
                   "new@example.com" "Admin" "SecurePass123!" oneAdmin))
    = [ EvFindFirst "new@example.com" "admin";
        EvHash 12;
        EvCreate (adminData oneAdmin "new@example.com" "Admin" "SecurePass123!") ] /\
  firstViolation 8 "new@example.com" "admin" "SecurePass123!" = None /\
  collidesUsername "admin" rootRow /\
  events (final (TS.createAdminUser
                   "new@example.com" "admin" "SecurePass123!" oneAdmin))
    = [ EvFindFirst "new@example.com" "admin";
        EvHash 12;
        EvCreate (adminData oneAdmin "new@example.com" "admin" "SecurePass123!");
        EvDisconnect ] /\
  List.length (rows (final (TS.createAdminUser
                              "new@example.com" "admin" "SecurePass123!" oneAdmin)))
    = 2.
Proof.
  split; [left; reflexivity|].
  repeat split; vm_compute; reflexivity.
Qed.

(** ** Uniqueness of email and username *)

(** C1, at the failing input. The table holds one account,
    [root@example.com] with username [Admin], and is unique
    case-insensitively. A valid candidate with a new email and the username
    [admin] collides with the stored username case-insensitively; the
    lookup compares the stored [Admin] with the key [admin] exactly and
    returns nothing, the unique index sees two different strings, and both
    scripts create a second account: the table is no longer unique. *)
Theorem case_variant_username_created :
  uniqueCI (rows oneAdmin) /\
  In rootRow (rows oneAdmin) /\
  collidesUsername "admin" rootRow /\
  firstViolation 8 "new@example.com" "admin" "SecurePass123!" = None /\
  firstViolation 12 "new@example.com" "admin" "SecurePass123!" = None /\
  outcome (TS.createAdminUser "new@example.com" "admin" "SecurePass123!" oneAdmin)
    = Normal {| sel_id := 2;
                sel_email := "new@example.com";
                sel_username := "admin";
                sel_role := "ADMIN";
                sel_isActive := true;
                sel_createdAt := 1000 |} /\
  JS.createAdminUser "new@example.com" "admin" "SecurePass123!" oneAdmin
    = TS.createAdminUser "new@example.com" "admin" "SecurePass123!" oneAdmin /\
  map User.username
    (rows (final (TS.createAdminUser
                    "new@example.com" "admin" "SecurePass123!" oneAdmin)))
    = ["Admin"; "admin"] /\
  ~ uniqueCI (rows (final (TS.createAdminUser
                             "new@example.com" "admin" "SecurePass123!" oneAdmin))) /\
  ~ uniqueCI (rows (final (JS.createAdminUser
                             "new@example.com" "admin" "SecurePass123!" oneAdmin))).
Proof.
  assert (Hdup : forall x : string, ~ NoDup [x; x]).
  { intros x H. inversion H as [|? ? Hn _]. apply Hn. left. reflexivity. }
  split; [split; repeat constructor; simpl; tauto|].
  split; [left; reflexivity|].
  split; [reflexivity|].
  split; [vm_compute; reflexivity|].
  split; [vm_compute; reflexivity|].
  split; [vm_compute; reflexivity|].
  split; [vm_compute; reflexivity|].
  split; [vm_compute; reflexivity|].
  split; intros [_ H]; vm_compute in H; exact (Hdup _ H).
Qed.



(** When only the username is in the table the report is the username's. *)
Example username_alone_reported :
  outcome (TS.createAdminUser "fresh@example.com" "admin" "SecurePass123!" twoAccounts)
    = Exited UsernameTaken.
Proof. vm_compute. reflexivity. Qed.

(** ** Creation *)






(** C5. Whenever a run of either script ends normally, the email it stored
    and returned is the candidate email in lower case, and the username it
    stored and returned is the candidate username as given. *)
Theorem email_lowercased_username_kept (e u p : string) (w : World) (s : Selected) :
  (outcome (TS.createAdminUser e u p w) = Normal s ->
   sel_email s = toLowerCase e /\ sel_username s = u /\
   exists row,
     rows (final (TS.createAdminUser e u p w)) = rows w ++ [row] /\
     User.email row = toLowerCase e /\ User.username row = u) /\
  (outcome (JS.createAdminUser e u p w) = Normal s ->
   sel_email s = toLowerCase e /\ sel_username s = u /\
   exists row,
     rows (final (JS.createAdminUser e u p w)) = rows w ++ [row] /\
     User.email row = toLowerCase e /\ User.username row = u).
Proof.
  split; intros H.
  - rewrite (ts_run_normal _ _ _ _ s H) in H |- *.
    cbn in H. inversion H; subst s. cbn.
    repeat split. exists (adminRow w e u p). repeat split.
  - rewrite (js_run_normal _ _ _ _ s H) in H |- *.
    cbn in H. inversion H; subst s. cbn.
    repeat split. exists (adminRow w e u p). repeat split.
Qed.

Lemma email_lowercased_username_kept_witness :
  exists s,
    outcome (TS.createAdminUser "Admin@Example.COM" "Ad-Min" "SecurePass123!" emptyWorld)
      = Normal s /\
    sel_email s = "admin@example.com" /\
    sel_username s = "Ad-Min".
Proof.
  set (s := select (adminRow emptyWorld "Admin@Example.COM" "Ad-Min" "SecurePass123!")).
  assert (Hrun : outcome (TS.createAdminUser
                            "Admin@Example.COM" "Ad-Min" "SecurePass123!" emptyWorld)
                 = Normal s) by (vm_compute; reflexivity).
  destruct (proj1 (email_lowercased_username_kept
                     "Admin@Example.COM" "Ad-Min" "SecurePass123!" emptyWorld s) Hrun)
    as (He & Hu & _).
  exists s. split; [exact Hrun|].
  split; [rewrite He; vm_compute; reflexivity | exact Hu].
Defined.

(** ** Errors of the store *)

(** How the two [catch] blocks classify the code of a rejected query. *)
Lemma handler_kinds (msg : string) (w : World) :
  TS.handler (mkError (Some "P2002") msg) w = (Exited EmailOrUsernameTaken, w) /\
  TS.handler (mkError (Some "P1001") msg) w = (Exited StoreUnavailable, w) /\
  TS.handler (mkError (Some "P2021") msg) w = (Exited SchemaMissing, w) /\
  JS.handler (mkError (Some "P2002") msg) w = (Exited EmailOrUsernameTaken, w) /\
  JS.handler (mkError (Some "P1001") msg) w = (Exited StoreUnavailable, w) /\
  JS.handler (mkError (Some "P2021") msg) w =
    (Exited (UnknownStoreError (mkError (Some "P2021") msg)), w).
Proof. repeat split. Qed.

(** A uniqueness violation raised by the write itself reaches the handler:
    the lookup for [admin] does not see the stored [Admin], the unique index
    does. *)
Example write_time_violation :
  outcome (TS.createAdminUser "new@example.com" "Admin" "SecurePass123!" oneAdmin)
    = Exited EmailOrUsernameTaken.
Proof. vm_compute. reflexivity. Qed.

(** C7, at the failing input. The table does not exist and every query is
    rejected with code P2021: the TypeScript script reports the missing
    schema, the JavaScript script has no branch for that code and reports
    the error under its catch-all. *)
Theorem js_schema_missing_unclassified :
  outcome (TS.createAdminUser "admin@example.com" "admin" "SecurePass123!" noSchema)
    = Exited SchemaMissing /\
  outcome (JS.createAdminUser "admin@example.com" "admin" "SecurePass123!" noSchema)
    = Exited (UnknownStoreError tableMissing).
Proof. split; vm_compute; reflexivity. Qed.

(** A P2021 rejection is classified by the TypeScript handler only, for
    every validated candidate. *)
Lemma schema_missing_runs (e u p msg : string) (w : World) :
  fault w = Some (mkError (Some "P2021") msg) ->
  (firstViolation 8 e u p = None ->
   outcome (TS.createAdminUser e u p w) = Exited SchemaMissing) /\
  (firstViolation 12 e u p = None ->
   outcome (JS.createAdminUser e u p w) =
     Exited (UnknownStoreError (mkError (Some "P2021") msg))).
Proof.
  intros Hf. split; intros Hv.
  - rewrite (ts_run_fault _ _ _ _ _ Hv Hf). reflexivity.
  - rewrite (js_run_fault _ _ _ _ _ Hv Hf). reflexivity.
Qed.

(** ** Scenarios of the specification *)

Example scenario_A :
  outcome (TS.createAdminUser "admin@example.com" "admin" "SecurePass123!" emptyWorld)
  = Normal {| sel_id := 1;
              sel_email := "admin@example.com";
              sel_username := "admin";
              sel_role := "ADMIN";
              sel_isActive := true;
              sel_createdAt := 1000 |}.
Proof. vm_compute. reflexivity. Qed.

Example scenario_B :
  TS.createAdminUser "admin@example.com" "admin" "short1!" emptyWorld
  = (Exited PasswordTooShort, emptyWorld).
Proof. vm_compute. reflexivity. Qed.

Example scenario_C :
  outcome (TS.createAdminUser "admin@example.com" "admin" "alllowercase123!" emptyWorld)
  = Exited PasswordMissingUppercase.
Proof. vm_compute. reflexivity. Qed.

Example scenario_D :
  outcome (TS.createAdminUser "admin@example.com" "ab" "SecurePass123!" emptyWorld)
  = Exited InvalidUsernameLength.
Proof. vm_compute. reflexivity. Qed.

Example scenario_E :
  outcome (TS.createAdminUser "Root@Example.com" "operator" "SecurePass123!" oneAdmin)
  = Exited EmailTaken.
Proof. vm_compute. reflexivity. Qed.

(** ** Running twice *)

Lemma find_app_none {A : Type} (P : A -> bool) (l1 l2 : list A) :
  find P l1 = None -> find P (l1 ++ l2) = find P l2.
Proof.
  induction l1 as [|a l1 IH]; simpl; [reflexivity|].
  destruct (P a); [discriminate | exact IH].
Qed.

Lemma selectFirst_app_none (ek uk : string) (l1 l2 : list User.t) :
  selectFirst ek uk l1 = None ->
  selectFirst ek uk (l1 ++ l2) = selectFirst ek uk l2.
Proof.
  unfold selectFirst.
  destruct (find (fun r => String.eqb (User.email r) ek) l1) eqn:He;
    [discriminate|].
  intros Hu. now rewrite (find_app_none _ _ _ He), (find_app_none _ _ _ Hu).
Qed.

Lemma ts_run_normal_inv (e u p : string) (w : World) (s : Selected) :
  outcome (TS.createAdminUser e u p w) = Normal s ->
  firstViolation 8 e u p = None /\ fault w = None /\
  selectFirst (toLowerCase e) (toLowerCase u) (rows w) = None.
Proof.
  intros H.
  destruct (firstViolation 8 e u p) as [f|] eqn:Hv.
  { rewrite (ts_run_rejected _ _ _ _ f Hv) in H. discriminate. }
  destruct (fault w) as [err|] eqn:Hf.
  { rewrite (ts_run_fault _ _ _ _ err Hv Hf) in H.
    destruct (ts_handler_exits err
                (record (EvFindFirst (toLowerCase e) (toLowerCase u)) w)) as [f Hh].
    rewrite Hh in H. discriminate. }
  destruct (selectFirst (toLowerCase e) (toLowerCase u) (rows w)) as [r|] eqn:Hr.
  { rewrite (ts_run_conflict _ _ _ _ r Hv Hf Hr) in H. discriminate. }
  auto.
Qed.

(** After a successful run, the same candidate is refused: its email is now
    in the table, in lower case, and the lookup finds it. *)
Lemma second_run_refused (e u p : string) (w : World) (s : Selected) :
  outcome (TS.createAdminUser e u p w) = Normal s ->
  outcome (TS.createAdminUser e u p (final (TS.createAdminUser e u p w)))
    = Exited EmailTaken /\
  rows (final (TS.createAdminUser e u p (final (TS.createAdminUser e u p w))))
    = rows (final (TS.createAdminUser e u p w)).
Proof.
  intros H. destruct (ts_run_normal_inv _ _ _ _ _ H) as (Hv & Hf & Hr).
  rewrite (ts_run_normal _ _ _ _ _ H). cbn [final snd].
  assert (Hfind : selectFirst (toLowerCase e) (toLowerCase u)
                    (rows (created w e u p)) = Some (adminRow w e u p)).
  { cbn [created record insert rows attempted].
    rewrite (selectFirst_app_none _ _ _ _ Hr). unfold selectFirst. cbn [find].
    cbn [adminRow User.email].
    now rewrite String.eqb_refl. }
  rewrite (ts_run_conflict e u p (created w e u p) _ Hv Hf Hfind).
  unfold reported. cbn [adminRow User.email outcome fst final snd].
  rewrite toLowerCase_idem, String.eqb_refl. split; reflexivity.
Qed.

(** ** The runs of the scripts, stage by stage *)

Lemma ts_run_eq (e u p : string) (w : World) :
  TS.createAdminUser e u p w = pipeline 8 TS.handler e u p w.
Proof.
  unfold pipeline.
  destruct (firstViolation 8 e u p) as [f|] eqn:Hv.
  { now apply ts_run_rejected. }
  destruct (fault w) as [err|] eqn:Hf.
  { now apply ts_run_fault. }
  destruct (selectFirst (toLowerCase e) (toLowerCase u) (rows w)) as [r|] eqn:Hr.
  { now apply ts_run_conflict. }
  destruct (existsb (whereOr (toLowerCase e) u) (rows w)) eqn:Hx.
  - now apply ts_run_duplicate.
  - now apply ts_run_created.
Qed.

Lemma js_run_eq (e u p : string) (w : World) :
  JS.createAdminUser e u p w =
  if JS.falsy e || JS.falsy u || JS.falsy p then (Exited MissingRequired, w)
  else pipeline 12 JS.handler e u p w.
Proof.
  destruct (JS.falsy e || JS.falsy u || JS.falsy p) eqn:Hn.
  { now apply js_run_required. }
  unfold pipeline.
  destruct (firstViolation 12 e u p) as [f|] eqn:Hv.
  { now apply js_run_rejected. }
  destruct (fault w) as [err|] eqn:Hf.
  { now apply js_run_fault. }
  destruct (selectFirst (toLowerCase e) (toLowerCase u) (rows w)) as [r|] eqn:Hr.
  { now apply js_run_conflict. }
  destruct (existsb (whereOr (toLowerCase e) u) (rows w)) eqn:Hx.
  - now apply js_run_duplicate.
  - now apply js_run_created.
Qed.

(** A failure of the validation policy comes out of a run only when the
    policy gives it. *)
Lemma pipeline_validation_kind (m : nat) (h : PrismaError -> Js Selected)
    (e u p : string) (w w' : World) (f : Failure) :
  (forall err w0, exists g, h err w0 = (Exited g, w0) /\ isValidationKind g = false) ->
  isValidationKind f = true ->
  pipeline m h e u p w = (Exited f, w') ->
  firstViolation m e u p = Some f.
Proof.
  intros Hh Hk. unfold pipeline.
  destruct (firstViolation m e u p) as [f0|] eqn:Hv.
  { intros H. now inversion H. }
  destruct (fault w) as [err|].
  { destruct (Hh err (record (EvFindFirst (toLowerCase e) (toLowerCase u)) w))
      as (g & -> & Hg).
    intros H. inversion H; subst. congruence. }
  destruct (selectFirst (toLowerCase e) (toLowerCase u) (rows w)) as [r|].
  { intros H. inversion H; subst.
    destruct (reported_cases e r) as [Hr | Hr]; rewrite Hr in Hk; discriminate. }
  destruct (existsb (whereOr (toLowerCase e) u) (rows w)); intros H;
    inversion H; subst; discriminate.
Qed.

Lemma ts_handler_not_validation (err : PrismaError) (w0 : World) :
  exists g, TS.handler err w0 = (Exited g, w0) /\ isValidationKind g = false.
Proof.
  unfold TS.handler, exit1.
  destruct (hasCode err "P2002"); [eauto|].
  destruct (hasCode err "P1001"); [eauto|].
  destruct (hasCode err "P2021"); eauto.
Qed.

Lemma js_handler_not_validation (err : PrismaError) (w0 : World) :
  exists g, JS.handler err w0 = (Exited g, w0) /\ isValidationKind g = false.
Proof.
  unfold JS.handler, exit1.
  destruct (hasCode err "P2002"); [eauto|].
  destruct (hasCode err "P1001"); eauto.
Qed.

Lemma firstViolation_email (m : nat) (e u p : string) :
  firstViolation m e u p = Some InvalidEmailFormat <-> test emailRegex e = false.
Proof.
  unfold firstViolation, rules. cbn [find holds].
  destruct (test emailRegex e); cbn [negb option_map kind].
  - split; [|discriminate].
    repeat match goal with
           | |- context [negb ?b] => destruct b; cbn [negb]
           end; cbn [option_map kind]; discriminate.
  - split; reflexivity.
Qed.

Lemma falsy_iff (s : string) : JS.falsy s = true <-> s = "".
Proof. unfold JS.falsy. apply String.eqb_eq. Qed.

Lemma all_nonempty (e u p : string) :
  JS.falsy e || JS.falsy u || JS.falsy p = false <->
  e <> "" /\ u <> "" /\ p <> "".
Proof.
  rewrite !orb_false_iff. unfold JS.falsy. rewrite !String.eqb_neq. tauto.
Qed.

(** X1. The email check: a run ends with the invalid-email failure exactly
    when the email is not of the shape [local@domain.tld] described by
    [emailShape]; in the JavaScript script the three fields must moreover
    be non-empty for that failure to be the one reported. *)
Theorem invalid_email_iff (e u p : string) (w : World) :
  (TS.createAdminUser e u p w = (Exited InvalidEmailFormat, w) <->
   ~ emailShape e) /\
  (JS.createAdminUser e u p w = (Exited InvalidEmailFormat, w) <->
   e <> "" /\ u <> "" /\ p <> "" /\ ~ emailShape e).
Proof.
  assert (Hshape : test emailRegex e = false <-> ~ emailShape e).
  { unfold emailShape. rewrite <- test_emailRegex.
    destruct (test emailRegex e); split; intros H; congruence. }
  split.
  - rewrite <- Hshape, <- (firstViolation_email 8 e u p). split.
    + rewrite ts_run_eq. apply pipeline_validation_kind;
        [apply ts_handler_not_validation | reflexivity].
    + apply ts_run_rejected.
  - rewrite <- Hshape, <- (firstViolation_email 12 e u p), <- and_assoc, <- and_assoc.
    rewrite (and_assoc (e <> "")), <- all_nonempty.
    rewrite js_run_eq. split.
    + destruct (JS.falsy e || JS.falsy u || JS.falsy p); [discriminate|].
      intros H. split; [reflexivity|].
      revert H. apply pipeline_validation_kind;
        [apply js_handler_not_validation | reflexivity].
    + intros [-> Hv]. unfold pipeline. now rewrite Hv.
Qed.

Lemma firstViolation_None_iff (m : nat) (e u p : string) :
  firstViolation m e u p = None <->
  test emailRegex e = true /\ test usernameRegex u = true /\
  (3 <=? String.length u) && (String.length u <=? 20) = true /\
  (m <=? String.length p) = true /\
  test upperRegex p = true /\ test lowerRegex p = true /\
  test digitRegex p = true /\ test specialRegex p = true.
Proof.
  split; [apply firstViolation_None|].
  intros (H1 & H2 & H3 & H4 & H5 & H6 & H7 & H8).
  unfold firstViolation, rules. cbn [find holds].
  now rewrite H1, H2, H3, H4, H5, H6, H7, H8.
Qed.

Lemma accepted_shapes (m : nat) (e u p : string) :
  firstViolation m e u p = None <->
  emailShape e /\ usernameShape u /\ passwordShape m p.
Proof.
  rewrite firstViolation_None_iff.
  unfold emailShape, usernameShape, passwordShape, upperRegex, lowerRegex,
    digitRegex, specialRegex.
  rewrite <- test_emailRegex, test_usernameRegex, !test_floating_class.
  rewrite !andb_true_iff, negb_true_iff, String.eqb_neq, !Nat.leb_le.
  split.
  - tauto.
  - intros (He & ((Hlo & Hhi) & Hall) & Hp). repeat split; try tauto.
    intros ->. simpl in Hlo. lia.
Qed.

(** X2. The candidates the validation lets through: an email of the shape
    [emailShape], a username of 3 to 20 characters among letters, digits,
    underscore and hyphen, and a secret of at least 8 characters (12 in the
    JavaScript script) with an ASCII capital, an ASCII small letter, a digit
    and a character of the special class. *)
Theorem validation_accepts_iff (e u p : string) (w : World) :
  (TS.validation e u p w = (Normal tt, w) <->
   emailShape e /\ usernameShape u /\ passwordShape 8 p) /\
  (JS.validation e u p w = (Normal tt, w) <->
   emailShape e /\ usernameShape u /\ passwordShape 12 p).
Proof.
  split.
  - rewrite <- accepted_shapes, ts_validation_run. unfold verdict.
    destruct (firstViolation 8 e u p); split; intros H; congruence.
  - rewrite <- accepted_shapes, js_validation_run. split.
    + destruct (JS.falsy e || JS.falsy u || JS.falsy p); [discriminate|].
      unfold verdict. destruct (firstViolation 12 e u p); congruence.
    + intros H. rewrite (valid_nonempty 12 e u p) by (lia || assumption).
      unfold verdict. now rewrite H.
Qed.

(** ** Lower-casing and the checks *)

Lemma deriv_invariant (f : ascii -> ascii) (c : ascii) (r : regex) :
  classesInvariant f r -> deriv (f c) r = deriv c r.
Proof.
  induction r as [| |p|r1 IH1 r2 IH2|r1 IH1 r2 IH2|r IH]; simpl; intros H.
  - reflexivity.
  - reflexivity.
  - now rewrite H.
  - destruct H as [H1 H2]. now rewrite IH1, IH2.
  - destruct H as [H1 H2]. now rewrite IH1, IH2.
  - now rewrite IH.
Qed.

Lemma classesInvariant_deriv (f : ascii -> ascii) (c : ascii) (r : regex) :
  classesInvariant f r -> classesInvariant f (deriv c r).
Proof.
  induction r as [| |p|r1 IH1 r2 IH2|r1 IH1 r2 IH2|r IH]; simpl; intros H.
  - exact I.
  - exact I.
  - destruct (p c); exact I.
  - destruct H as [H1 H2]. destruct (nullable r1); simpl; auto.
  - destruct H as [H1 H2]. auto.
  - auto.
Qed.

Lemma matches_toLowerCase (s : string) :
  forall r, classesInvariant lowerChar r ->
            matches r (toLowerCase s) = matches r s.
Proof.
  induction s as [|c s IH]; intros r H; simpl; [reflexivity|].
  rewrite (deriv_invariant lowerChar c r H).
  apply IH. now apply classesInvariant_deriv.
Qed.

Lemma lowerChar_classes (c : ascii) :
  notSpaceAt (lowerChar c) = notSpaceAt c /\
  isChar "@" (lowerChar c) = isChar "@" c /\
  isChar "." (lowerChar c) = isChar "." c /\
  isUsernameChar (lowerChar c) = isUsernameChar c.
Proof.
  destruct c as [[] [] [] [] [] [] [] []]; vm_compute; repeat split.
Qed.

Lemma email_check_lowercase (s : string) :
  test emailRegex (toLowerCase s) = test emailRegex s.
Proof.
  unfold test, emailRegex. apply matches_toLowerCase.
  simpl. repeat split; intros c; apply lowerChar_classes.
Qed.

Lemma username_check_lowercase (s : string) :
  test usernameRegex (toLowerCase s) = test usernameRegex s.
Proof.
  unfold test, usernameRegex. apply matches_toLowerCase.
  simpl. repeat split; intros c; apply lowerChar_classes.
Qed.

Lemma length_bounds (n : nat) :
  (3 <=? n) && (n <=? 20) = true <-> 3 <= n <= 20.
Proof. rewrite andb_true_iff, !Nat.leb_le. tauto. Qed.

Lemma pipeline_rows (m : nat) (h : PrismaError -> Js Selected)
    (e u p : string) (w : World) :
  (forall err w0, exists g, h err w0 = (Exited g, w0)) ->
  rows (final (pipeline m h e u p w)) = rows w \/
  (firstViolation m e u p = None /\
   selectFirst (toLowerCase e) (toLowerCase u) (rows w) = None /\
   rows (final (pipeline m h e u p w)) = rows w ++ [adminRow w e u p]).
Proof.
  intros Hh. unfold pipeline.
  destruct (firstViolation m e u p) as [f|]; [left; reflexivity|].
  destruct (fault w) as [err|].
  { destruct (Hh err (record (EvFindFirst (toLowerCase e) (toLowerCase u)) w))
      as [g ->]. left. reflexivity. }
  destruct (selectFirst (toLowerCase e) (toLowerCase u) (rows w)) as [r|];
    [left; reflexivity|].
  destruct (existsb (whereOr (toLowerCase e) u) (rows w));
    [left; reflexivity | right; auto].
Qed.

Lemma js_rows (e u p : string) (w : World) :
  rows (final (JS.createAdminUser e u p w)) = rows w \/
  (firstViolation 12 e u p = None /\
   selectFirst (toLowerCase e) (toLowerCase u) (rows w) = None /\
   rows (final (JS.createAdminUser e u p w)) = rows w ++ [adminRow w e u p]).
Proof.
  rewrite js_run_eq.
  destruct (JS.falsy e || JS.falsy u || JS.falsy p); [left; reflexivity|].
  apply pipeline_rows. apply js_handler_exits.
Qed.

Lemma ts_rows (e u p : string) (w : World) :
  rows (final (TS.createAdminUser e u p w)) = rows w \/
  (firstViolation 8 e u p = None /\
   selectFirst (toLowerCase e) (toLowerCase u) (rows w) = None /\
   rows (final (TS.createAdminUser e u p w)) = rows w ++ [adminRow w e u p]).
Proof.
  rewrite ts_run_eq. apply pipeline_rows. apply ts_handler_exits.
Qed.

Lemma adminRow_scriptRow (m : nat) (e u p : string) (w : World) :
  firstViolation m e u p = None -> scriptRow (adminRow w e u p).
Proof.
  intros Hv. apply firstViolation_None in Hv.
  destruct Hv as (He & Hu & Hlen & _).
  unfold scriptRow. cbn [adminRow User.email User.username].
  rewrite toLowerCase_idem, email_check_lowercase.
  repeat split; try assumption; now apply length_bounds.
Qed.

(** X3. The rows of the table keep the form the scripts give them: when
    every row has its email in lower case and of the accepted shape, and a
    username of the accepted characters and length, so has every row after a
    run of either script, whatever the candidate. The email that is written
    is the lower-cased one, which passes the email check as the given one
    did. *)
Theorem rows_keep_script_form (e u p : string) (w : World) :
  (forall r, In r (rows w) -> scriptRow r) ->
  (forall r, In r (rows (final (TS.createAdminUser e u p w))) -> scriptRow r) /\
  (forall r, In r (rows (final (JS.createAdminUser e u p w))) -> scriptRow r).
Proof.
  intros Hw. split; intros r.
  - destruct (ts_rows e u p w) as [-> | (Hv & _ & ->)]; [apply Hw|].
    rewrite in_app_iff. intros [Hr | [<- | []]]; [now apply Hw|].
    now apply (adminRow_scriptRow 8).
  - destruct (js_rows e u p w) as [-> | (Hv & _ & ->)]; [apply Hw|].
    rewrite in_app_iff. intros [Hr | [<- | []]]; [now apply Hw|].
    now apply (adminRow_scriptRow 12).
Qed.

Lemma rows_keep_script_form_witness :
  Forall scriptRow
    (rows (final (TS.createAdminUser
                    "New@Example.com" "operator" "SecurePass123!" oneAdmin))).
Proof.
  apply Forall_forall.
  apply (rows_keep_script_form
           "New@Example.com" "operator" "SecurePass123!" oneAdmin).
  intros r [<- | []]. vm_compute. repeat split; lia.
Defined.

(** X4. The email column stays normalised: when the stored emails are in
    lower case and pairwise distinct, they still are after a run of either
    script, so no run ever stores an email that matches a stored one
    case-insensitively. *)
Theorem emails_stay_normalised (e u p : string) (w : World) :
  emailsNormalised (rows w) ->
  emailsNormalised (rows (final (TS.createAdminUser e u p w))) /\
  emailsNormalised (rows (final (JS.createAdminUser e u p w))).
Proof.
  intros [Hlow Hnd].
  assert (Hnew : selectFirst (toLowerCase e) (toLowerCase u) (rows w) = None ->
                 emailsNormalised (rows w ++ [adminRow w e u p])).
  { intros Hr. split.
    - intros r. rewrite in_app_iff. intros [Hin | [<- | []]]; [now apply Hlow|].
      cbn [adminRow User.email]. now rewrite toLowerCase_idem.
    - rewrite map_app. cbn [map adminRow User.email].
      apply NoDup_app; [exact Hnd | repeat constructor; simpl; tauto |].
      intros x Hx [<- | []]. apply in_map_iff in Hx.
      destruct Hx as (r & Heq & Hin).
      pose proof (selectFirst_none _ _ _ Hr r Hin) as Hn.
      unfold whereOr in Hn. apply orb_false_iff in Hn. destruct Hn as [Hn _].
      apply String.eqb_neq in Hn. contradiction. }
  split.
  - destruct (ts_rows e u p w) as [-> | (_ & Hr & ->)]; [now split | now apply Hnew].
  - destruct (js_rows e u p w) as [-> | (_ & Hr & ->)]; [now split | now apply Hnew].
Qed.

Lemma emails_stay_normalised_witness :
  emailsNormalised
    (rows (final (TS.createAdminUser
                    "New@Example.com" "operator" "SecurePass123!" oneAdmin))).
Proof.
  apply (emails_stay_normalised
           "New@Example.com" "operator" "SecurePass123!" oneAdmin).
  split.
  - intros r [<- | []]. reflexivity.
  - repeat constructor. simpl. tauto.
Defined.

(** ** The calls of a run *)

Lemma calls_app (w w' : World) (l : list Event) :
  events w' = events w ++ l -> calls w w' = l.
Proof.
  intros H. unfold calls. rewrite H, skipn_app, skipn_all, Nat.sub_diag.
  reflexivity.
Qed.

Lemma pipeline_calls (m : nat) (h : PrismaError -> Js Selected)
    (e u p : string) (w : World) :
  (forall err w0, exists g, h err w0 = (Exited g, w0)) ->
  let r := pipeline m h e u p w in
  let lookup := EvFindFirst (toLowerCase e) (toLowerCase u) in
  (exists s, outcome r = Normal s /\
     calls w (final r) =
       [lookup; EvHash 12; EvCreate (adminData w e u p); EvDisconnect] /\
     rows (final r) = rows w ++ [adminRow w e u p]) \/
  (exists f, outcome r = Exited f /\
     rows (final r) = rows w /\
     (calls w (final r) = [] \/
      calls w (final r) = [lookup] \/
      calls w (final r) = [lookup; EvHash 12; EvCreate (adminData w e u p)])).
Proof.
  intros Hh. cbv zeta. unfold pipeline.
  destruct (firstViolation m e u p) as [f|].
  { right. exists f. repeat split. left.
    apply calls_app. cbn. now rewrite app_nil_r. }
  destruct (fault w) as [err|].
  { destruct (Hh err (record (EvFindFirst (toLowerCase e) (toLowerCase u)) w))
      as [g ->].
    right. exists g. repeat split. right. left. now apply calls_app. }
  destruct (selectFirst (toLowerCase e) (toLowerCase u) (rows w)) as [r|].
  { right. eexists. repeat split. right. left. now apply calls_app. }
  destruct (existsb (whereOr (toLowerCase e) u) (rows w)).
  - right. eexists. repeat split. right. right.
    apply calls_app. cbn. now rewrite <- !app_assoc.
  - left. eexists. repeat split.
    apply calls_app. cbn. now rewrite <- !app_assoc.
Qed.

(** X5. What a run does to the outside, in both scripts. A run ends
    normally or through an exit with status 1, never with an uncaught
    rejection. When it ends normally it has made four calls, in the order
    lookup, hashing, creation, disconnection, and the table has one more
    row. When it exits, the table is unchanged, the client was not
    disconnected, and the calls made are none, or the lookup alone, or the
    lookup, the hashing and the refused creation. *)
Theorem run_calls (e u p : string) (w : World) :
  let lookup := EvFindFirst (toLowerCase e) (toLowerCase u) in
  let shape (r : Completion Selected * World) :=
    (exists s, outcome r = Normal s /\
       calls w (final r) =
         [lookup; EvHash 12; EvCreate (adminData w e u p); EvDisconnect] /\
       rows (final r) = rows w ++ [adminRow w e u p]) \/
    (exists f, outcome r = Exited f /\
       rows (final r) = rows w /\
       (calls w (final r) = [] \/
        calls w (final r) = [lookup] \/
        calls w (final r) = [lookup; EvHash 12; EvCreate (adminData w e u p)])) in
  shape (TS.createAdminUser e u p w) /\ shape (JS.createAdminUser e u p w).
Proof.
  cbv zeta. split.
  - rewrite ts_run_eq. apply pipeline_calls. apply ts_handler_exits.
  - rewrite js_run_eq.
    destruct (JS.falsy e || JS.falsy u || JS.falsy p).
    + right. exists MissingRequired. repeat split. left.
      apply calls_app. cbn. now rewrite app_nil_r.
    + apply pipeline_calls. apply js_handler_exits.
Qed.

(** ** Running twice *)

Lemma pipeline_rerun (m : nat) (h : PrismaError -> Js Selected)
    (e u p : string) (w w' : World) (s : Selected) :
  (forall err w0, exists g, h err w0 = (Exited g, w0)) ->
  pipeline m h e u p w = (Normal s, w') ->
  pipeline m h e u p w' =
  (Exited EmailTaken, record (EvFindFirst (toLowerCase e) (toLowerCase u)) w').
Proof.
  intros Hh. unfold pipeline at 1.
  destruct (firstViolation m e u p) as [f|] eqn:Hv; [discriminate|].
  destruct (fault w) as [err|] eqn:Hf.
  { destruct (Hh err (record (EvFindFirst (toLowerCase e) (toLowerCase u)) w))
      as [g ->]. discriminate. }
  destruct (selectFirst (toLowerCase e) (toLowerCase u) (rows w)) as [r|] eqn:Hr;
    [discriminate|].
  destruct (existsb (whereOr (toLowerCase e) u) (rows w)); [discriminate|].
  intros H. injection H as _ <-.
  unfold pipeline. rewrite Hv.
  cbn [created attempted record insert rows fault]. rewrite Hf.
  rewrite (selectFirst_app_none _ _ _ _ Hr). unfold selectFirst. cbn [find].
  unfold whereOr at 1. cbn [adminRow User.email].
  rewrite String.eqb_refl. cbn [orb].
  unfold reported. cbn [adminRow User.email].
  now rewrite toLowerCase_idem, String.eqb_refl.
Qed.

(** X6. Running a script again with the candidate it has just created is
    refused: the second run of either script finds the stored lower-cased
    email, reports [EmailTaken] after the lookup alone, and leaves the table
    as the first run left it. *)
Theorem rerun_reports_email_taken (e u p : string) (w : World) (s : Selected) :
  (outcome (TS.createAdminUser e u p w) = Normal s ->
   let w' := final (TS.createAdminUser e u p w) in
   TS.createAdminUser e u p w' =
   (Exited EmailTaken, record (EvFindFirst (toLowerCase e) (toLowerCase u)) w')) /\
  (outcome (JS.createAdminUser e u p w) = Normal s ->
   let w' := final (JS.createAdminUser e u p w) in
   JS.createAdminUser e u p w' =
   (Exited EmailTaken, record (EvFindFirst (toLowerCase e) (toLowerCase u)) w')).
Proof.
  split; cbv zeta.
  - rewrite !ts_run_eq. intros H.
    destruct (pipeline 8 TS.handler e u p w) as [c w'] eqn:Hrun.
    cbn in H. subst c. cbn [final snd].
    apply (pipeline_rerun 8 TS.handler e u p w w' s);
      [apply ts_handler_exits | exact Hrun].
  - rewrite !js_run_eq.
    destruct (JS.falsy e || JS.falsy u || JS.falsy p); [discriminate|].
    intros H.
    destruct (pipeline 12 JS.handler e u p w) as [c w'] eqn:Hrun.
    cbn in H. subst c. cbn [final snd].
    apply (pipeline_rerun 12 JS.handler e u p w w' s);
      [apply js_handler_exits | exact Hrun].
Qed.

Lemma rerun_reports_email_taken_witness :
  outcome (TS.createAdminUser "Admin@Example.com" "Root" "SecurePass123!"
             (final (TS.createAdminUser
                       "Admin@Example.com" "Root" "SecurePass123!" emptyWorld)))
  = Exited EmailTaken.
Proof.
  pose proof (proj1 (rerun_reports_email_taken
                       "Admin@Example.com" "Root" "SecurePass123!" emptyWorld
                       (select (adminRow emptyWorld
                                  "Admin@Example.com" "Root" "SecurePass123!")))) as H.
  cbv zeta in H. rewrite H; [reflexivity|].
  vm_compute. reflexivity.
Defined.

(** ** The two scripts side by side *)

Lemma handlers_agree (err : PrismaError) (w : World) :
  hasCode err "P2021" = false -> JS.handler err w = TS.handler err w.
Proof.
  intros H. unfold JS.handler, TS.handler. rewrite H. reflexivity.
Qed.

(** X7. Outside their two differences the scripts are the same program: on
    a candidate with three non-empty fields and a secret of at most 7 or at
    least 12 characters, in a world whose database does not reject queries
    with code P2021, a run of the JavaScript script and a run of the
    TypeScript script end alike and leave the same world. *)
Theorem scripts_agree (e u p : string) (w : World) :
  e <> "" -> u <> "" -> p <> "" ->
  String.length p <= 7 \/ 12 <= String.length p ->
  (forall err, fault w = Some err -> hasCode err "P2021" = false) ->
  JS.createAdminUser e u p w = TS.createAdminUser e u p w.
Proof.
  intros He Hu Hp Hlen Hcode.
  rewrite js_run_eq, ts_run_eq.
  rewrite (proj2 (all_nonempty e u p)) by auto.
  unfold pipeline.
  rewrite (firstViolation_threshold 12 8 e u p).
  2:{ destruct (Nat.leb_spec 8 (String.length p)),
               (Nat.leb_spec 12 (String.length p)); try reflexivity; lia. }
  destruct (firstViolation 8 e u p); [reflexivity|].
  destruct (fault w) as [err|] eqn:Hf; [|reflexivity].
  apply handlers_agree. now apply Hcode.
Qed.

Lemma scripts_agree_witness :
  JS.createAdminUser "Root@Example.com" "newadmin" "SecurePass123!" oneAdmin =
  TS.createAdminUser "Root@Example.com" "newadmin" "SecurePass123!" oneAdmin.
Proof.
  apply (scripts_agree "Root@Example.com" "newadmin" "SecurePass123!" oneAdmin);
    [discriminate | discriminate | discriminate | right; simpl; lia |].
  intros err H. discriminate H.
Defined.

(** X8. Between 8 and 11 characters the scripts part: a candidate the
    TypeScript script accepts, whose secret has fewer than 12 characters, is
    refused by the JavaScript script as too short, before any call. *)
Theorem short_secret_divides (e u p : string) (w : World) :
  emailShape e -> usernameShape u -> passwordShape 8 p ->
  String.length p < 12 ->
  TS.validation e u p w = (Normal tt, w) /\
  JS.createAdminUser e u p w = (Exited PasswordTooShort, w).
Proof.
  intros He Hu Hp Hlen.
  assert (Hv : firstViolation 8 e u p = None) by (apply accepted_shapes; auto).
  split.
  - rewrite ts_validation_run, Hv. reflexivity.
  - rewrite js_run_eq, (valid_nonempty 8 e u p) by (lia || assumption).
    apply firstViolation_None in Hv.
    destruct Hv as (H1 & H2 & H3 & _).
    unfold pipeline, firstViolation, rules. cbn [find holds].
    rewrite H1, H2, H3. cbn [negb].
    replace (12 <=? String.length p) with false; [reflexivity|].
    symmetry. apply Nat.leb_gt. exact Hlen.
Qed.

Lemma short_secret_divides_witness :
  TS.validation "admin@example.com" "admin" "Secure123!" emptyWorld =
    (Normal tt, emptyWorld) /\
  JS.createAdminUser "admin@example.com" "admin" "Secure123!" emptyWorld =
    (Exited PasswordTooShort, emptyWorld).
Proof.
  apply (short_secret_divides "admin@example.com" "admin" "Secure123!" emptyWorld).
  - exists "admin", "example", "com". vm_compute. repeat split; discriminate.
  - split; [simpl; lia | vm_compute; reflexivity].
  - repeat split; try (vm_compute; reflexivity). simpl. lia.
  - simpl. lia.
Defined.

(** ** Empty fields and a failing database *)

(** X9. Empty fields in the TypeScript script, which has no check of its
    own for them: an empty email is an invalid email; with an email of the
    accepted shape an empty username is a username of invalid characters;
    with an accepted email and username an empty secret is a secret that is
    too short. The world is untouched in the three cases. *)
Theorem ts_empty_fields (e u p : string) (w : World) :
  TS.createAdminUser "" u p w = (Exited InvalidEmailFormat, w) /\
  (emailShape e ->
   TS.createAdminUser e "" p w = (Exited InvalidUsernameFormat, w)) /\
  (emailShape e -> usernameShape u ->
   TS.createAdminUser e u "" w = (Exited PasswordTooShort, w)).
Proof.
  split; [|split].
  - apply ts_run_rejected. reflexivity.
  - intros He. apply ts_run_rejected. apply test_emailRegex in He.
    unfold firstViolation, rules. cbn [find holds]. rewrite He. reflexivity.
  - intros He [Hlen Hall]. apply ts_run_rejected.
    apply test_emailRegex in He.
    assert (Hu : test usernameRegex u = true).
    { rewrite test_usernameRegex, Hall, andb_true_r.
      apply negb_true_iff, String.eqb_neq. intros ->. simpl in Hlen. lia. }
    apply length_bounds in Hlen.
    unfold firstViolation, rules. cbn [find holds].
    rewrite He, Hu, Hlen. reflexivity.
Qed.

Lemma ts_empty_fields_witness :
  TS.createAdminUser "admin@example.com" "admin" "" oneAdmin =
  (Exited PasswordTooShort, oneAdmin).
Proof.
  apply (ts_empty_fields "admin@example.com" "admin" "" oneAdmin).
  - exists "admin", "example", "com". vm_compute. repeat split; discriminate.
  - split; [simpl; lia | vm_compute; reflexivity].
Defined.

(** X10. A database that rejects its queries. A candidate that breaks a
    rule is told so and the database is not contacted, whatever its
    condition. A candidate that passes validation makes the lookup, which
    is rejected: the run exits after that single call, nothing is hashed or
    created, and the report is the catch-all one, carrying the error,
    exactly when the error has no code or a code that the [catch] block
    does not test (P2002, P1001 and, in the TypeScript script only,
    P2021). *)
Theorem failing_database (e u p : string) (w : World) (err : PrismaError) :
  fault w = Some err ->
  let w1 := record (EvFindFirst (toLowerCase e) (toLowerCase u)) w in
  (forall f, firstViolation 8 e u p = Some f ->
     TS.createAdminUser e u p w = (Exited f, w)) /\
  (firstViolation 8 e u p = None ->
   exists g, TS.createAdminUser e u p w = (Exited g, w1) /\
     (g = UnknownStoreError err <->
      hasCode err "P2002" = false /\ hasCode err "P1001" = false /\
      hasCode err "P2021" = false)) /\
  (firstViolation 12 e u p = None ->
   exists g, JS.createAdminUser e u p w = (Exited g, w1) /\
     (g = UnknownStoreError err <->
      hasCode err "P2002" = false /\ hasCode err "P1001" = false)).
Proof.
  intros Hf. cbv zeta. split; [intros f Hv; now apply ts_run_rejected|].
  split; intros Hv.
  - rewrite (ts_run_fault _ _ _ _ _ Hv Hf). unfold TS.handler, exit1.
    destruct (hasCode err "P2002"); [eexists; split; [reflexivity|];
      split; [discriminate | intros (H & _); discriminate]|].
    destruct (hasCode err "P1001"); [eexists; split; [reflexivity|];
      split; [discriminate | intros (_ & H & _); discriminate]|].
    destruct (hasCode err "P2021"); [eexists; split; [reflexivity|];
      split; [discriminate | intros (_ & _ & H); discriminate]|].
    eexists. split; [reflexivity|]. split; auto.
  - rewrite (js_run_fault _ _ _ _ _ Hv Hf). unfold JS.handler, exit1.
    destruct (hasCode err "P2002"); [eexists; split; [reflexivity|];
      split; [discriminate | intros (H & _); discriminate]|].
    destruct (hasCode err "P1001"); [eexists; split; [reflexivity|];
      split; [discriminate | intros (_ & H); discriminate]|].
    eexists. split; [reflexivity|]. split; auto.
Qed.

Lemma failing_database_witness :
  TS.createAdminUser "admin@example.com" "ab" "SecurePass123!" noSchema =
  (Exited InvalidUsernameLength, noSchema).
Proof.
  apply (failing_database "admin@example.com" "ab" "SecurePass123!"
           noSchema tableMissing eq_refl).
  vm_compute. reflexivity.
Defined.

(** ** The diagnostic script *)

Lemma pty_log_fields (l : PtyTest.Line) (st : PtyTest.State) :
  PtyTest.success (PtyTest.log l st) = PtyTest.success st /\
  PtyTest.lastError (PtyTest.log l st) = PtyTest.lastError st /\
  PtyTest.timers (PtyTest.log l st) = PtyTest.timers st.
Proof. repeat split. Qed.

Lemma pty_availability_state (env : PtyTest.Env) (shells : list string) :
  forall st,
    PtyTest.availability env shells st =
    {| PtyTest.success := PtyTest.success st;
       PtyTest.lastError := PtyTest.lastError st;
       PtyTest.console :=
         PtyTest.console st ++
         map (fun s => PtyTest.Availability s (PtyTest.existsSync env s)
                         (PtyTest.existsSync env s)) shells;
       PtyTest.written := PtyTest.written st;
       PtyTest.timers := PtyTest.timers st;
       PtyTest.listeners := PtyTest.listeners st |}.
Proof.
  induction shells as [|s rest IH]; intros st; simpl.
  - rewrite app_nil_r. now destruct st.
  - rewrite IH. cbn. rewrite <- app_assoc. cbn.
    now destruct (PtyTest.existsSync env s).
Qed.

Lemma pty_loop_success (env : PtyTest.Env) (shells : list string) :
  forall st, PtyTest.success (PtyTest.spawnLoop env shells st) = PtyTest.success st.
Proof.
  induction shells as [|s rest IH]; intros st; simpl; [reflexivity|].
  destruct (PtyTest.existsSync env s); simpl.
  - destruct (PtyTest.spawn env s); [reflexivity | now rewrite IH].
  - now rewrite IH.
Qed.

Lemma pty_loop_console_extends (env : PtyTest.Env) (shells : list string) :
  forall st, exists more,
    PtyTest.console (PtyTest.spawnLoop env shells st) = PtyTest.console st ++ more.
Proof.
  induction shells as [|s rest IH]; intros st; simpl.
  - exists []. now rewrite app_nil_r.
  - destruct (PtyTest.existsSync env s); simpl.
    + destruct (PtyTest.spawn env s) as [pid|error].
      * eexists. cbn. rewrite <- app_assoc. reflexivity.
      * destruct (IH (PtyTest.log (PtyTest.failedLine error)
                        (PtyTest.failed error
                           (PtyTest.log (PtyTest.Trying s) st)))) as [more ->].
        eexists. cbn. rewrite <- !app_assoc. reflexivity.
    + destruct (IH (PtyTest.log (PtyTest.Skipping s) st)) as [more ->].
      eexists. cbn. rewrite <- !app_assoc. reflexivity.
Qed.

Lemma pty_before_final_test (env : PtyTest.Env) (shells : list string) :
  let st0 := PtyTest.log PtyTest.SpawnHeader
               (PtyTest.availability env shells (PtyTest.start env)) in
  PtyTest.success (PtyTest.spawnLoop env shells st0) = false /\
  exists more,
    PtyTest.console (PtyTest.spawnLoop env shells st0) =
    [ PtyTest.Banner;
      PtyTest.SystemInfo (PtyTest.platform env) (PtyTest.arch env)
        (PtyTest.version env) (PtyTest.orElse (PtyTest.SHELL env) "not set");
      PtyTest.CheckingHeader ] ++
    map (fun s => PtyTest.Availability s (PtyTest.existsSync env s)
                    (PtyTest.existsSync env s)) shells ++
    PtyTest.SpawnHeader :: more.
Proof.
  cbv zeta. split.
  - rewrite pty_loop_success, pty_availability_state. reflexivity.
  - match goal with
    | |- context [PtyTest.spawnLoop env shells ?st] =>
        destruct (pty_loop_console_extends env shells st) as [more ->]
    end.
    rewrite pty_availability_state. cbn [PtyTest.log PtyTest.console PtyTest.start].
    exists more. rewrite <- !app_assoc. reflexivity.
Qed.

(** X11. The diagnostic script never reports success: whatever the machine,
    whether or not a shell was spawned, its top level reaches the final
    test with [success] still false (the only assignment is in the timer
    callback, which has not run), prints the all-shells-failed report and
    ends through [process.exit(1)]. *)
Theorem pty_script_exits_1 (env : PtyTest.Env) :
  fst (PtyTest.script env) = PtyTest.Exits 1 /\
  In PtyTest.AllFailed (PtyTest.console (snd (PtyTest.script env))) /\
  PtyTest.success (snd (PtyTest.script env)) = false.
Proof.
  unfold PtyTest.script. cbv zeta.
  destruct (pty_before_final_test env PtyTest.testShells) as [Hs _].
  cbv zeta in Hs. rewrite Hs. cbn [negb fst snd].
  split; [reflexivity|]. split.
  - destruct (PtyTest.lastError _); cbn [PtyTest.log PtyTest.console];
      rewrite !in_app_iff; cbn [In]; tauto.
  - destruct (PtyTest.lastError _); cbn [PtyTest.log PtyTest.success]; exact Hs.
Qed.

(** X12. The availability report: after the three opening messages the
    script prints one line for each of the five shells, in the order of the
    list, and marks a shell as executable exactly when the file exists: the
    test on [fs.constants.X_OK] is a test on a non-zero constant, no
    permission is looked at. *)
Theorem pty_availability_report (env : PtyTest.Env) :
  exists rest,
    PtyTest.console (snd (PtyTest.script env)) =
    [ PtyTest.Banner;
      PtyTest.SystemInfo (PtyTest.platform env) (PtyTest.arch env)
        (PtyTest.version env) (PtyTest.orElse (PtyTest.SHELL env) "not set");
      PtyTest.CheckingHeader ] ++
    map (fun s => PtyTest.Availability s (PtyTest.existsSync env s)
                    (PtyTest.existsSync env s)) PtyTest.testShells ++
    PtyTest.SpawnHeader :: rest.
Proof.
  unfold PtyTest.script. cbv zeta.
  destruct (pty_before_final_test env PtyTest.testShells) as [Hs [more Hc]].
  cbv zeta in Hs, Hc. rewrite Hs. cbn [negb snd].
  destruct (PtyTest.lastError _); cbn [PtyTest.log PtyTest.console];
    rewrite Hc; eexists; rewrite <- !app_assoc; cbn [app]; reflexivity.
Qed.

Lemma pty_loop_past (env : PtyTest.Env) (before rest : list string) :
  (forall x, In x before -> PtyTest.passes env x) ->
  forall st,
    PtyTest.spawnLoop env (before ++ rest) st =
    PtyTest.spawnLoop env rest (gonePast env before st).
Proof.
  induction before as [|x before IH]; intros Hp st.
  - cbn. unfold gonePast. cbn. rewrite app_nil_r. now destruct st.
  - cbn [app PtyTest.spawnLoop].
    assert (Hx : PtyTest.passes env x) by (apply Hp; now left).
    assert (Hb : forall y, In y before -> PtyTest.passes env y)
      by (intros y Hy; apply Hp; now right).
    destruct (PtyTest.existsSync env x) eqn:Hex; cbn [negb].
    + destruct Hx as [Hx | [error Hx]]; [congruence|].
      rewrite Hx, (IH Hb). f_equal.
      unfold gonePast. cbn. rewrite Hex, Hx. cbn.
      unfold PtyTest.missLines at 2. rewrite Hex, Hx. cbn.
      now rewrite <- !app_assoc.
    + rewrite (IH Hb). f_equal.
      unfold gonePast. cbn. rewrite Hex.
      unfold PtyTest.missLines at 2. rewrite Hex. cbn.
      now rewrite <- !app_assoc.
Qed.

Lemma pty_script_unfold (env : PtyTest.Env) :
  let st := PtyTest.spawnLoop env PtyTest.testShells
              (PtyTest.log PtyTest.SpawnHeader
                 (PtyTest.availability env PtyTest.testShells (PtyTest.start env))) in
  snd (PtyTest.script env) =
  {| PtyTest.success := PtyTest.success st;
     PtyTest.lastError := PtyTest.lastError st;
     PtyTest.console := PtyTest.console st ++ ptyClosing (PtyTest.lastError st);
     PtyTest.written := PtyTest.written st;
     PtyTest.timers := PtyTest.timers st;
     PtyTest.listeners := PtyTest.listeners st |}.
Proof.
  cbv zeta. unfold PtyTest.script. cbv zeta.
  destruct (pty_before_final_test env PtyTest.testShells) as [Hs _].
  cbv zeta in Hs.
  set (st' := PtyTest.spawnLoop env PtyTest.testShells _) in *.
  destruct st' as [suc last con wr ti li]. cbn in Hs. subst suc.
  destruct last; unfold PtyTest.log, ptyClosing; cbn;
    [rewrite <- app_assoc|]; reflexivity.
Qed.

Lemma pty_loop_start (env : PtyTest.Env) :
  PtyTest.log PtyTest.SpawnHeader
    (PtyTest.availability env PtyTest.testShells (PtyTest.start env)) =
  {| PtyTest.success := false; PtyTest.lastError := None;
     PtyTest.console := ptyOpening env;
     PtyTest.written := []; PtyTest.timers := []; PtyTest.listeners := [] |}.
Proof.
  rewrite pty_availability_state. unfold ptyOpening, PtyTest.log, PtyTest.start.
  cbn [PtyTest.success PtyTest.lastError
       PtyTest.console PtyTest.written PtyTest.timers PtyTest.listeners].
  f_equal; rewrite <- ?app_assoc; reflexivity.
Qed.

(** X13. The second loop stops at the first shell that spawns. When the
    shells before [s] in the list are missing or fail to spawn, and [s]
    exists and spawns, the console holds the lines of those shells, the two
    lines of [s], and the closing report, with the details of the last
    failure before [s] if there was one; exactly one terminal was written
    to, one timer of 500 ms and one listener were registered; the shells
    after [s] are neither tried nor reported as skipped. *)
Theorem pty_stops_at_first_spawn (env : PtyTest.Env)
    (before after : list string) (s : string) (pid : nat) :
  PtyTest.testShells = before ++ s :: after ->
  (forall x, In x before -> PtyTest.passes env x) ->
  PtyTest.existsSync env s = true ->
  PtyTest.spawn env s = PtyTest.Spawned pid ->
  let st := snd (PtyTest.script env) in
  PtyTest.console st =
    ptyOpening env ++ flat_map (PtyTest.missLines env) before ++
    [PtyTest.Trying s; PtyTest.SpawnedLine s pid] ++
    ptyClosing (PtyTest.lastFailure env before None) /\
  PtyTest.written st = [(pid, PtyTest.probe)] /\
  PtyTest.timers st = [(pid, 500)] /\
  PtyTest.listeners st = [pid].
Proof.
  intros Hsplit Hbefore Hex Hsp. cbv zeta.
  rewrite pty_script_unfold. cbv zeta. rewrite pty_loop_start.
  rewrite Hsplit.
  rewrite (pty_loop_past env before (s :: after) Hbefore).
  cbn [PtyTest.spawnLoop]. rewrite Hex, Hsp. cbn [negb].
  unfold gonePast, PtyTest.started, PtyTest.log.
  cbn [PtyTest.console PtyTest.written
       PtyTest.timers PtyTest.listeners PtyTest.lastError PtyTest.success app].
  split; [|repeat split].
  rewrite <- !app_assoc. reflexivity.
Qed.

Lemma pty_stops_at_first_spawn_witness :
  PtyTest.timers (snd (PtyTest.script bashBroken)) = [(4242, 500)] /\
  PtyTest.written (snd (PtyTest.script bashBroken)) = [(4242, PtyTest.probe)].
Proof.
  destruct (pty_stops_at_first_spawn bashBroken
              ["/bin/zsh"; "/bin/bash"] ["/opt/homebrew/bin/zsh"; "/usr/local/bin/zsh"]
              "/bin/sh" 4242) as (_ & Hw & Ht & _).
  - reflexivity.
  - intros x [<- | [<- | []]].
    + left. reflexivity.
    + right. eexists. reflexivity.
  - reflexivity.
  - reflexivity.
  - split; [exact Ht | exact Hw].
Defined.

(** X14. When no shell of the list spawns, each being missing or failing,
    the script writes to no terminal and registers no timer and no
    listener; the console holds the lines of the five shells and the
    closing report, whose details are those of the last shell that failed,
    and are absent when every shell is missing. *)
Theorem pty_no_shell_spawns (env : PtyTest.Env) :
  (forall x, In x PtyTest.testShells -> PtyTest.passes env x) ->
  let st := snd (PtyTest.script env) in
  PtyTest.console st =
    ptyOpening env ++ flat_map (PtyTest.missLines env) PtyTest.testShells ++
    ptyClosing (PtyTest.lastFailure env PtyTest.testShells None) /\
  PtyTest.written st = [] /\ PtyTest.timers st = [] /\ PtyTest.listeners st = [] /\
  ((forall x, In x PtyTest.testShells -> PtyTest.existsSync env x = false) ->
   PtyTest.console st =
     ptyOpening env ++ map PtyTest.Skipping PtyTest.testShells ++
     [PtyTest.AllFailed]).
Proof.
  intros Hall. cbv zeta.
  rewrite pty_script_unfold. cbv zeta. rewrite pty_loop_start.
  pose proof (pty_loop_past env PtyTest.testShells [] Hall) as Hloop.
  rewrite app_nil_r in Hloop. rewrite Hloop.
  cbn [PtyTest.spawnLoop gonePast PtyTest.console PtyTest.written
       PtyTest.timers PtyTest.listeners PtyTest.lastError PtyTest.success].
  split; [now rewrite <- !app_assoc|]. repeat split.
  intros Hnone. rewrite <- !app_assoc. f_equal.
  assert (Hgen : forall shells acc,
             (forall x, In x shells -> PtyTest.existsSync env x = false) ->
             flat_map (PtyTest.missLines env) shells = map PtyTest.Skipping shells /\
             PtyTest.lastFailure env shells acc = acc).
  { induction shells as [|x shells IH]; intros acc Hx; [split; reflexivity|].
    cbn [flat_map map PtyTest.lastFailure]. unfold PtyTest.missLines at 1.
    rewrite (Hx x) by (now left). cbn [negb app].
    destruct (IH acc) as [-> ->]; [intros y Hy; apply Hx; now right|].
    split; reflexivity. }
  destruct (Hgen PtyTest.testShells None Hnone) as [-> ->]. reflexivity.
Qed.

Lemma pty_no_shell_spawns_witness :
  PtyTest.console (snd (PtyTest.script noShell)) =
  ptyOpening noShell ++ map PtyTest.Skipping PtyTest.testShells ++
  [PtyTest.AllFailed].
Proof.
  destruct (pty_no_shell_spawns noShell) as (_ & _ & _ & _ & H).
  - intros x _. left. reflexivity.
  - apply H. intros x _. reflexivity.
Defined.

(** ** Stored usernames with a capital *)

(** X15. The username filter of the lookup cannot select an account whose
    stored username is not in lower case, since the key it is compared with
    is lower-cased: when no stored email is the lower-cased candidate email
    and no stored username is in lower case, the lookup block of either
    script finds nothing and lets the run go on, for every candidate
    username, the case variants of the stored ones included. *)
Theorem capital_username_not_found (e u : string) (w : World) :
  fault w = None ->
  (forall r, In r (rows w) -> User.email r <> toLowerCase e) ->
  (forall r, In r (rows w) -> User.username r <> toLowerCase (User.username r)) ->
  TS.checkExisting e u w =
    (Normal tt, record (EvFindFirst (toLowerCase e) (toLowerCase u)) w) /\
  JS.checkExisting e u w =
    (Normal tt, record (EvFindFirst (toLowerCase e) (toLowerCase u)) w).
Proof.
  intros Hf He Hu.
  assert (Hr : selectFirst (toLowerCase e) (toLowerCase u) (rows w) = None).
  { destruct (selectFirst (toLowerCase e) (toLowerCase u) (rows w)) as [r|] eqn:Hr;
      [|reflexivity].
    apply selectFirst_some in Hr. destruct Hr as [Hin Hm].
    apply whereOr_exact in Hm. destruct Hm as [Hm | Hm].
    - now apply He in Hin.
    - apply Hu in Hin. exfalso. apply Hin.
      rewrite Hm. symmetry. apply toLowerCase_idem. }
  split; [|rewrite js_checkExisting_eq]; now apply checkExisting_miss.
Qed.

Lemma capital_username_not_found_witness :
  collidesUsername "admin" rootRow /\
  TS.checkExisting "new@example.com" "admin" oneAdmin =
    (Normal tt, record (EvFindFirst "new@example.com" "admin") oneAdmin).
Proof.
  split; [reflexivity|].
  apply (capital_username_not_found "new@example.com" "admin" oneAdmin).
  - reflexivity.
  - intros r [<- | []]. vm_compute. discriminate.
  - intros r [<- | []]. vm_compute. discriminate.
Defined.
